(** * PVR voxel volumes: ray intersection handlers, reconstruction filters
      and the [VoxelVolume] orchestrator

    A shallow embedding of [libpvr/src/Volumes/VoxelVolume.cpp].

    The C++ code computes on [double] and [float].  The embedding is written
    once, over an interface [Scalar] of the arithmetic the code uses, and is
    read at two instances:
    - [R], exact real arithmetic, in which the general theorems are proved;
    - [float], Rocq's primitive IEEE 754 binary64 numbers, in which the code
      is evaluated on concrete rays (division by zero, NaN and the sign of
      zero behave as they do in the compiled program).

    Classes of the Imath and Field3D libraries are modelled by records and
    functions of the same names.  Functions whose bodies are outside
    [VoxelVolume.cpp] and are not fixed by what the code does with them
    (the ray/box test and the corner list of [pvr/Math.h], the matrix
    inverse, the linear sampler) are fields of the classes [Externals] and
    [LinearFieldInterp]; the module [Instances] gives one model of each. *)

From Stdlib Require Import Reals Lra Lia ZArith List Bool String.
From Stdlib Require Import Floats.PrimFloat.
From Stdlib Require Floats.FloatAxioms.
Import ListNotations.

Set Implicit Arguments.

(* ------------------------------------------------------------------ *)
(** * Scalars *)
(* ------------------------------------------------------------------ *)

(** The arithmetic of [double] that the code relies on. [fltb] is [<],
    [feqb] is [==], [f_of_Z] is [static_cast<double>(int)] and [fmaxval] is
    [std::numeric_limits<double>::max()]. *)
Class Scalar (F : Type) : Type := {
  f0 : F;
  f1 : F;
  fadd : F -> F -> F;
  fsub : F -> F -> F;
  fmul : F -> F -> F;
  fdiv : F -> F -> F;
  fopp : F -> F;
  fsqrt : F -> F;
  fltb : F -> F -> bool;
  feqb : F -> F -> bool;
  f_of_Z : Z -> F;
  fmaxval : F
}.

Declare Scope scalar_scope.
Delimit Scope scalar_scope with sc.
Infix "+" := fadd : scalar_scope.
Infix "-" := fsub : scalar_scope.
Infix "*" := fmul : scalar_scope.
Infix "/" := fdiv : scalar_scope.
Notation "- x" := (fopp x) : scalar_scope.
Infix "<?" := fltb (at level 70, no associativity) : scalar_scope.
Infix "==?" := feqb (at level 70, no associativity) : scalar_scope.

Section StdAlgorithms.
Context {F : Type} `{Scalar F}.
Local Open Scope scalar_scope.

(** [std::max(a, b)] is [(a < b) ? b : a]. *)
Definition std_max (a b : F) : F := if a <? b then b else a.

(** [std::min(a, b)] is [(b < a) ? b : a]. *)
Definition std_min (a b : F) : F := if b <? a then b else a.

(** [a > b] is [b < a]. *)
Definition fgtb (a b : F) : bool := b <? a.
End StdAlgorithms.

(** ** Exact real arithmetic *)

Definition Rltb (x y : R) : bool := if Rlt_dec x y then true else false.
Definition Reqb (x y : R) : bool := if Req_dec_T x y then true else false.

(** The largest finite binary64 number, (2^53 - 1) * 2^971. *)
Definition dbl_max : R := IZR ((2 ^ 53 - 1) * 2 ^ 971).

#[export] Instance Scalar_R : Scalar R := {|
  f0 := 0%R;
  f1 := 1%R;
  fadd := Rplus;
  fsub := Rminus;
  fmul := Rmult;
  fdiv := Rdiv;
  fopp := Ropp;
  fsqrt := R_sqrt.sqrt;
  fltb := Rltb;
  feqb := Reqb;
  f_of_Z := IZR;
  fmaxval := dbl_max
|}.

(** ** IEEE 754 binary64 *)

(** Conversion of an integer, exact for every 32-bit [int]. *)
Fixpoint float_of_pos (p : positive) : float :=
  match p with
  | xH => PrimFloat.one
  | xO q => PrimFloat.mul PrimFloat.two (float_of_pos q)
  | xI q => PrimFloat.add (PrimFloat.mul PrimFloat.two (float_of_pos q))
                          PrimFloat.one
  end.

Definition float_of_Z (z : Z) : float :=
  match z with
  | Z0 => PrimFloat.zero
  | Zpos p => float_of_pos p
  | Zneg p => PrimFloat.opp (float_of_pos p)
  end.

#[export] Instance Scalar_float : Scalar float := {|
  f0 := PrimFloat.zero;
  f1 := PrimFloat.one;
  fadd := PrimFloat.add;
  fsub := PrimFloat.sub;
  fmul := PrimFloat.mul;
  fdiv := PrimFloat.div;
  fopp := PrimFloat.opp;
  fsqrt := PrimFloat.sqrt;
  fltb := PrimFloat.ltb;
  feqb := PrimFloat.eqb;
  f_of_Z := float_of_Z;
  fmaxval := PrimFloat.next_down PrimFloat.infinity
|}.

(* ------------------------------------------------------------------ *)
(** * Imath: vectors, matrices, lines, planes, boxes *)
(* ------------------------------------------------------------------ *)

Module Imath.
Section Imath.
Context {F : Type} `{Scalar F}.
Local Open Scope scalar_scope.

(** [Imath::Vec3<T>]. *)
Record Vec3 : Type := V3 { vx : F; vy : F; vz : F }.

Definition vadd (a b : Vec3) : Vec3 :=
  V3 (vx a + vx b) (vy a + vy b) (vz a + vz b).
Definition vsub (a b : Vec3) : Vec3 :=
  V3 (vx a - vx b) (vy a - vy b) (vz a - vz b).
Definition vscale (a : Vec3) (s : F) : Vec3 :=
  V3 (vx a * s) (vy a * s) (vz a * s).
Definition vdivs (a : Vec3) (s : F) : Vec3 :=
  V3 (vx a / s) (vy a / s) (vz a / s).

(** [Vec3::dot], also written [a ^ b]. *)
Definition dot (a b : Vec3) : F :=
  vx a * vx b + vy a * vy b + vz a * vz b.

(** [Vec3::cross], also written [a % b]. *)
Definition cross (a b : Vec3) : Vec3 :=
  V3 (vy a * vz b - vz a * vy b)
     (vz a * vx b - vx a * vz b)
     (vx a * vy b - vy a * vx b).

(** [Vec3::length]: the square root of [dot] with itself.  (Imath takes
    another route to the same number when the sum of squares is below
    twice the smallest normal number, where it would lose precision.) *)
Definition length (a : Vec3) : F := fsqrt (dot a a).

(** [Vec3::normalize]: divides by the length unless it is zero. *)
Definition normalize (a : Vec3) : Vec3 :=
  let l := length a in
  if l ==? f0 then a else vdivs a l.

(** Component access [v[dim]]. *)
Definition vnth (a : Vec3) (dim : nat) : F :=
  match dim with
  | O => vx a
  | S O => vy a
  | _ => vz a
  end.

(** [Imath::Line3<T>], the type behind [Ray]; [line_at r t] is the call
    operator [r(t)], [pos + dir * t]. *)
Record Line3 : Type := mkLine { pos : Vec3; dir : Vec3 }.

Definition line_at (r : Line3) (t : F) : Vec3 :=
  vadd (pos r) (vscale (dir r) t).

(** [Imath::Plane3<T>]: the points [p] with [normal . p = distance]. *)
Record Plane3 : Type := mkPlane { normal : Vec3; distance : F }.

(** The constructor [Plane3(p1, p2, p3)]. *)
Definition plane_of_points (p1 p2 p3 : Vec3) : Plane3 :=
  let n := normalize (cross (vsub p2 p1) (vsub p3 p1)) in
  mkPlane n (dot n p1).

(** [Plane3::intersectT(line, t)]: [None] stands for the result [false],
    [Some t] for [true] with the parameter written to [t]. *)
Definition intersectT (p : Plane3) (line : Line3) : option F :=
  let d := dot (normal p) (dir line) in
  if d ==? f0 then None
  else Some (- (dot (normal p) (pos line) - distance p) / d).

(** [Imath::Matrix44<T>], row-major as in [x[row][col]]. *)
Record M44 : Type := mkM44 {
  m00 : F; m01 : F; m02 : F; m03 : F;
  m10 : F; m11 : F; m12 : F; m13 : F;
  m20 : F; m21 : F; m22 : F; m23 : F;
  m30 : F; m31 : F; m32 : F; m33 : F
}.

(** [Matrix44::multVecMatrix(src, dst)]: the point transform, with the
    homogeneous divide. *)
Definition multVecMatrix (m : M44) (src : Vec3) : Vec3 :=
  let a := vx src * m00 m + vy src * m10 m + vz src * m20 m + m30 m in
  let b := vx src * m01 m + vy src * m11 m + vz src * m21 m + m31 m in
  let c := vx src * m02 m + vy src * m12 m + vz src * m22 m + m32 m in
  let w := vx src * m03 m + vy src * m13 m + vz src * m23 m + m33 m in
  V3 (a / w) (b / w) (c / w).

(** [Matrix44::multDirMatrix(src, dst)]: the vector transform, which
    ignores the translation row. *)
Definition multDirMatrix (m : M44) (src : Vec3) : Vec3 :=
  let a := vx src * m00 m + vy src * m10 m + vz src * m20 m in
  let b := vx src * m01 m + vy src * m11 m + vz src * m21 m in
  let c := vx src * m02 m + vy src * m12 m + vz src * m22 m in
  V3 a b c.

(** [Imath::Box<Vec3<double>>]. *)
Record Box3 : Type := mkBox3 { bmin : Vec3; bmax : Vec3 }.
End Imath.

(** [Imath::V3i] and [Imath::Box3i]. *)
Record V3i : Type := mkV3i { ix : Z; iy : Z; iz : Z }.
Record Box3i : Type := mkBox3i { imin : V3i; imax : V3i }.

Definition inth (a : V3i) (dim : nat) : Z :=
  match dim with
  | O => ix a
  | S O => iy a
  | _ => iz a
  end.

Arguments Vec3 F : clear implicits.
Arguments Line3 F : clear implicits.
Arguments Plane3 F : clear implicits.
Arguments M44 F : clear implicits.
Arguments Box3 F : clear implicits.
End Imath.
Import Imath.

(* ------------------------------------------------------------------ *)
(** * Field3D: mappings and fields *)
(* ------------------------------------------------------------------ *)

Module Field3D.
Section Field3D.
Context {F : Type} `{Scalar F}.

(** [MatrixFieldMapping]: the Uniform mapping, held as the matrices
    returned by [localToWorld()] and [worldToVoxel()]. *)
Record MatrixFieldMapping : Type := mkMatrixFieldMapping {
  mm_localToWorld : M44 F;
  mm_worldToVoxel : M44 F
}.

(** [FrustumMapping]: the projective mapping, held as the two virtual
    functions the code calls. *)
Record FrustumMapping : Type := mkFrustumMapping {
  fm_localToWorld : Vec3 F -> Vec3 F;
  fm_worldToVoxel : Vec3 F -> Vec3 F
}.

(** [FieldMapping::Ptr], by dynamic type. [OtherMapping] is any mapping
    class that is neither of the two above (Field3D's [NullFieldMapping],
    for one). *)
Inductive FieldMapping : Type :=
  | MatrixMapping (m : MatrixFieldMapping)
  | FrustumMap (m : FrustumMapping)
  | OtherMapping (worldToVoxel : Vec3 F -> Vec3 F).

(** The virtual [FieldMapping::worldToVoxel(wsP, vsP)]. *)
Definition worldToVoxel (m : FieldMapping) (wsP : Vec3 F) : Vec3 F :=
  match m with
  | MatrixMapping mm => multVecMatrix (mm_worldToVoxel mm) wsP
  | FrustumMap fm => fm_worldToVoxel fm wsP
  | OtherMapping w => w wsP
  end.

(** Storage class of a field: what [field_dynamic_cast<DenseBuffer>]
    looks at. *)
Inductive Storage : Type := Dense | Sparse.

(** A [Field<Data_T>] as this file uses it: [attribute] is the
    attribute name, [mapping] the (possibly null) mapping pointer,
    [dataWindow] the inclusive index range of the stored voxels and
    [value i j k] the voxel lookup. *)
Record Field (Data_T : Type) : Type := mkField {
  storage : Storage;
  attribute : string;
  mapping : option FieldMapping;
  dataWindow : Box3i;
  value : Z -> Z -> Z -> Data_T
}.

(** [discToCont(i)]: the continuous coordinate of the centre of voxel
    [i], [i + 0.5]. *)
Definition discToCont (i : Z) : F :=
  fadd (f_of_Z i) (fdiv f1 (fadd f1 f1)).
End Field3D.
Arguments MatrixFieldMapping F : clear implicits.
Arguments FrustumMapping F : clear implicits.
Arguments FieldMapping F : clear implicits.
Arguments Field F Data_T : clear implicits.
End Field3D.
Import Field3D.

(* ------------------------------------------------------------------ *)
(** * Parts of the repository outside [VoxelVolume.cpp] *)
(* ------------------------------------------------------------------ *)

(** [pvr::Interval]. *)
Record Interval (F : Type) : Type := mkInterval {
  t0 : F;
  t1 : F;
  stepLength : F
}.

(** Functions called by the code whose bodies are in other files:
    - [Math_intersect ray box] is [Math::intersect(ray, box, t0, t1)] of
      [pvr/Math.h], the ray/box test: [None] for [false], [Some (t0, t1)]
      for [true];
    - [Math_cornerPoints box] is [Math::cornerPoints(box)] of [pvr/Math.h];
    - [M44_inverse] is Imath's [Matrix44::inverse()]. *)
Class Externals (F : Type) `{Scalar F} : Type := {
  Math_intersect : Line3 F -> Box3 F -> option (F * F);
  Math_cornerPoints : Box3 F -> list (Vec3 F);
  M44_inverse : M44 F -> M44 F
}.
Arguments Externals F {_}.

(** Field3D's [LinearFieldInterp<Imath::V3f>]: [LinearFieldInterp_sample
    field vsP] is its [sample(field, vsP)]. *)
Class LinearFieldInterp (F : Type) : Type := {
  LinearFieldInterp_sample : Field F (Vec3 F) -> Vec3 F -> Vec3 F
}.

Definition Ray (F : Type) : Type := Line3 F.
Definition Vector (F : Type) : Type := Vec3 F.
Definition Color (F : Type) : Type := Vec3 F.
Definition BBox (F : Type) : Type := Box3 F.
Definition Plane (F : Type) : Type := Plane3 F.
Definition PTime (F : Type) : Type := F.
Definition IntervalVec (F : Type) : Type := list (Interval F).

Section Pvr.
Context {F : Type} `{Scalar F}.

(** Modelled from the spec: [Bounds::zeroOne()] of [pvr/Math.h] is absent;
    it is the canonical unit box [0,1]^3. *)
Definition Bounds_zeroOne : BBox F := mkBox3 (V3 f0 f0 f0) (V3 f1 f1 f1).

(** Modelled from the spec: [Colors::zero()] of [pvr/Types.h] is absent;
    it is the zero color. *)
Definition Colors_zero : Color F := V3 f0 f0 f0.
End Pvr.

(* ------------------------------------------------------------------ *)
(** * Intersection handlers *)
(* ------------------------------------------------------------------ *)

Module UniformMappingIntersection.
Section UniformMappingIntersection.
Context {F : Type} `{Externals F}.
Local Open Scope scalar_scope.

Record t : Type := mk {
  m_localToWorld : M44 F;
  m_worldToLocal : M44 F;
  m_worldToVoxel : M44 F
}.

(** The constructor, from a [MatrixFieldMapping]. *)
Definition make (mapping : MatrixFieldMapping F) : t :=
  let localToWorld := mm_localToWorld mapping in
  mk localToWorld (M44_inverse localToWorld) (mm_worldToVoxel mapping).

Definition intersect (self : t) (wsRay : Ray F) (time : PTime F)
  : IntervalVec F :=
  (* Transform ray to local space for intersection test *)
  let lsRay := mkLine (multVecMatrix (m_worldToLocal self) (pos wsRay))
                      (multDirMatrix (m_worldToLocal self) (dir wsRay)) in
  (* Use unit bounding box to intersect against *)
  let lsBBox := Bounds_zeroOne in
  (* Calculate intersection points *)
  match Math_intersect lsRay lsBBox with
  | Some (t0, t1) =>
      let wsNear := line_at wsRay t0 in
      let wsFar := line_at wsRay t1 in
      let vsNear := multVecMatrix (m_worldToVoxel self) wsNear in
      let vsFar := multVecMatrix (m_worldToVoxel self) wsFar in
      let numSamples := length (vsub vsFar vsNear) in
      let stepLength := (t1 - t0) / numSamples in
      [mkInterval t0 t1 stepLength]
  | None => []
  end.
End UniformMappingIntersection.
Arguments t F : clear implicits.
End UniformMappingIntersection.

Module FrustumMappingIntersection.
Section FrustumMappingIntersection.
Context {F : Type} `{Externals F}.
Local Open Scope scalar_scope.

(** [m_planes] is the array [Plane m_planes[6]]. *)
Record t : Type := mk {
  m_mapping : FrustumMapping F;
  m_planes : list (Plane F)
}.

(** [wsCorners[i]]; the constructor only reads indices below 8. *)
Definition corner (wsCorners : list (Vector F)) (i : nat) : Vector F :=
  nth i wsCorners (V3 f0 f0 f0).

(** The constructor, from a [FrustumMapping]. *)
Definition make (mapping : FrustumMapping F) : t :=
  (* Get the eight corners of the local space bounding box *)
  let lsBounds := Bounds_zeroOne in
  let lsCorners := Math_cornerPoints lsBounds in
  (* Get the world space positions of the eight corners of the frustum *)
  let wsCorners := map (fm_localToWorld mapping) lsCorners in
  let c := corner wsCorners in
  (* Construct plane for each face of frustum *)
  mk mapping
     [ plane_of_points (c 4%nat) (c 0%nat) (c 6%nat);
       plane_of_points (c 1%nat) (c 5%nat) (c 3%nat);
       plane_of_points (c 4%nat) (c 5%nat) (c 0%nat);
       plane_of_points (c 2%nat) (c 3%nat) (c 6%nat);
       plane_of_points (c 0%nat) (c 1%nat) (c 2%nat);
       plane_of_points (c 5%nat) (c 4%nat) (c 7%nat) ].

(** One turn of the loop over the planes, on the pair [(t0, t1)]. *)
Definition plane_step (wsRay : Ray F) (acc : F * F) (p : Plane F) : F * F :=
  let '(t0, t1) := acc in
  match intersectT p wsRay with
  | Some t =>
      if fgtb (dot (dir wsRay) (normal p)) f0
      then (* Non-opposing plane *) (t0, std_min t1 t)
      else (* Opposing plane *) (std_max t0 t, t1)
  | None => acc
  end.

(** The values of [t0] and [t1] when the loop is left. *)
Definition plane_bounds (self : t) (wsRay : Ray F) : F * F :=
  fold_left (plane_step wsRay) (m_planes self) (- fmaxval, fmaxval).

Definition intersect (self : t) (wsRay : Ray F) (time : PTime F)
  : IntervalVec F :=
  let '(t0, t1) := plane_bounds self wsRay in
  if t0 <? t1 then
    let t0 := std_max t0 f0 in
    let wsNear := line_at wsRay t0 in
    let wsFar := line_at wsRay t1 in
    let vsNear := fm_worldToVoxel (m_mapping self) wsNear in
    let vsFar := fm_worldToVoxel (m_mapping self) wsFar in
    let numSamples := length (vsub vsFar vsNear) in
    let stepLength := (t1 - t0) / numSamples in
    [mkInterval t0 t1 stepLength]
  else [].
End FrustumMappingIntersection.
Arguments t F : clear implicits.
End FrustumMappingIntersection.

(* ------------------------------------------------------------------ *)
(** * GaussianFieldInterp *)
(* ------------------------------------------------------------------ *)

(** What the template parameter [Data_T] has to provide: construction
    from [0.0f], [+=], [float * Data_T] and [Data_T / float]. *)
Class DataT (D : Type) : Type := {
  d_zero : D;
  d_add : D -> D -> D;
  d_scale : R -> D -> D;
  d_div : D -> R -> D
}.

#[export] Instance DataT_R : DataT R := {|
  d_zero := 0%R;
  d_add := Rplus;
  d_scale := Rmult;
  d_div := Rdiv
|}.

#[export] Instance DataT_V3 : DataT (Vec3 R) := {|
  d_zero := V3 0%R 0%R 0%R;
  d_add := vadd;
  d_scale := fun w v => vscale v w;
  d_div := vdivs
|}.

(** [for (int i = lo; i < lo + n; ++i) s = body(i, s);] with the counter
    as an integer; the caller checks that the bound [lo + n] is an
    [int]. *)
Fixpoint for_loop {S : Type} (lo : Z) (n : nat) (body : Z -> S -> S) (s : S)
  : S :=
  match n with
  | O => s
  | Datatypes.S n' => for_loop (lo + 1) n' body (body lo s)
  end.

(** The range of [int], 32 bits wide. *)
Definition INT_MIN : Z := - 2 ^ 31.
Definition INT_MAX : Z := 2 ^ 31 - 1.

Definition is_int (z : Z) : bool := (INT_MIN <=? z)%Z && (z <=? INT_MAX)%Z.

(** A number as an [int].  The conversion [static_cast<int>] of a number
    outside the range of [int] and the overflow of [int] arithmetic are
    undefined behaviour: [None]. *)
Definition to_int (z : Z) : option Z := if is_int z then Some z else None.

(** The sampler, in exact real arithmetic: [float] and [double] are both
    read as [R].  An [int] is an integer within the range of [int]; a call
    that would leave the range has no result, [None]. *)
Module GaussianFieldInterp.
Section GaussianFieldInterp.
Context {Data_T : Type} `{DataT Data_T}.
Local Open Scope R_scope.

(** [struct Gaussian]. *)
Record Gaussian : Type := mkGaussian {
  m_alpha : R;
  m_width : R;
  m_exp : R
}.

Definition Gaussian_make (alpha width : R) : Gaussian :=
  mkGaussian alpha width (exp (- alpha * width * width)).

Definition eval (g : Gaussian) (x : R) : R :=
  std_max 0 (exp (- m_alpha g * x * x) - m_exp g).

Definition eval3 (g : Gaussian) (x y z : R) : R :=
  eval g x * eval g y * eval g z.

(** The body of the innermost loop, on the pair
    [(value, normalization)]. *)
Definition tap (data : Field R Data_T) (gaussian : Gaussian)
    (clampedVsP : Vec3 R) (k j i : Z) (acc : Data_T * R) : Data_T * R :=
  let '(value, normalization) := acc in
  let dataWindow := dataWindow data in
  let weight := eval3 gaussian (discToCont i - vx clampedVsP)
                               (discToCont j - vy clampedVsP)
                               (discToCont k - vz clampedVsP) in
  let ic := Z.max (ix (imin dataWindow)) (Z.min i (ix (imax dataWindow))) in
  let jc := Z.max (iy (imin dataWindow)) (Z.min j (iy (imax dataWindow))) in
  let kc := Z.max (iz (imin dataWindow)) (Z.min k (iz (imax dataWindow))) in
  (d_add value (d_scale weight (Field3D.value data ic jc kc)),
   normalization + weight).

(** [static_cast<int>(floor(x)) - 1]. *)
Definition floor_minus_one (x : R) : option Z :=
  match to_int (Zfloor x) with
  | Some z => to_int (z - 1)
  | None => None
  end.

(** The lower left corner [c] of the neighbourhood. *)
Definition corner (clampedVsP : Vec3 R) : option V3i :=
  (* Voxel centers are at .5 coordinates *)
  let p := vsub clampedVsP (V3 0.5 0.5 0.5) in
  match floor_minus_one (vx p), floor_minus_one (vy p),
        floor_minus_one (vz p) with
  | Some cx, Some cy, Some cz => Some (mkV3i cx cy cz)
  | _, _, _ => None
  end.

(** The bounds [c.z + 4], [c.y + 4] and [c.x + 4] of the three loops are
    values of type [int]; the counters stay below them. *)
Definition loop_bounds (c : V3i) : bool :=
  is_int (iz c + 4) && is_int (iy c + 4) && is_int (ix c + 4).

Definition clamp_point (vsP : Vec3 R) : Vec3 R :=
  V3 (std_max 0.5 (vx vsP)) (std_max 0.5 (vy vsP)) (std_max 0.5 (vz vsP)).

(** [value] and [normalization] when the three loops are left. *)
Definition accumulate (data : Field R Data_T) (vsP : Vec3 R)
  : option (Data_T * R) :=
  let clampedVsP := clamp_point vsP in
  match corner clampedVsP with
  | None => None
  | Some c =>
      let gaussian := Gaussian_make 2 2 in
      if loop_bounds c
      then Some (for_loop (iz c) 4 (fun k =>
                   for_loop (iy c) 4 (fun j =>
                     for_loop (ix c) 4 (fun i =>
                       tap data gaussian clampedVsP k j i)))
                   (d_zero, 0))
      else None
  end.

Definition sample (data : Field R Data_T) (vsP : Vec3 R)
  : option Data_T :=
  match accumulate data vsP with
  | Some (value, normalization) => Some (d_div value normalization)
  | None => None
  end.
End GaussianFieldInterp.
End GaussianFieldInterp.

(* ------------------------------------------------------------------ *)
(** * Exceptions, the log and the state of a call *)
(* ------------------------------------------------------------------ *)

Inductive Exception : Type :=
| MissingBufferException
| MissingMappingException
| UnsupportedMappingException.

(** What [Log::print] and [Log::warning] append to the log. *)
Inductive LogEntry : Type :=
| LogPrint (msg : string)
| LogWarning (msg : string).

(** How a call ends. *)
Inductive outcome (A : Type) : Type :=
| Returned (a : A)
| Thrown (e : Exception).
Arguments Returned {A} a.
Arguments Thrown {A} e.

(** State and exceptions: a computation takes the state to an outcome and
    the state it leaves behind (an exception keeps the writes made before
    it was thrown). *)
Definition M (St A : Type) : Type := St -> outcome A * St.

Definition ret {St A : Type} (a : A) : M St A := fun s => (Returned a, s).

Definition bind {St A B : Type} (c : M St A) (k : A -> M St B) : M St B :=
  fun s =>
    match c s with
    | (Returned a, s') => k a s'
    | (Thrown e, s') => (Thrown e, s')
    end.

Definition throw {St A : Type} (e : Exception) : M St A :=
  fun s => (Thrown e, s).

Definition get {St : Type} : M St St := fun s => (Returned s, s).

Definition put {St : Type} (s : St) : M St unit := fun _ => (Returned tt, s).

Notation "x <- c ;; k" := (bind c (fun x => k))
  (at level 61, c at next level, right associativity).
Notation "c ;; k" := (bind c (fun _ => k))
  (at level 61, right associativity).

(* ------------------------------------------------------------------ *)
(** * VoxelVolume *)
(* ------------------------------------------------------------------ *)

(** The three states of [VolumeAttr::index()]. *)
Inductive AttrIndex : Type :=
| IndexNotSet
| IndexInvalid
| IndexValid (i : Z).

(** [VolumeAttr]: a name and the (mutable) cached index. *)
Record VolumeAttr : Type := mkVolumeAttr {
  attr_name : string;
  attr_index : AttrIndex
}.

(** Modelled from the spec: [Volume::setupVolumeAttr(attr, name, index)]
    of [pvr/Volumes/Volume.h] is absent; it resolves the attribute against
    the name: [index] if the names match, else "invalid". *)
Definition setupVolumeAttr (attr : VolumeAttr) (name : string) (index : Z)
  : VolumeAttr :=
  if String.eqb (attr_name attr) name
  then mkVolumeAttr (attr_name attr) (IndexValid index)
  else mkVolumeAttr (attr_name attr) IndexInvalid.

Section IsInBounds.
Context {F : Type} `{Scalar F}.
Local Open Scope scalar_scope.

(** The loop of [isInBounds] over the dimensions still to check. *)
Fixpoint isInBounds_from (dims : list nat) (vsP : Vector F)
    (dataWindow : Box3i) : bool :=
  match dims with
  | [] => true
  | dim :: rest =>
      if (vnth vsP dim <? f_of_Z (inth (imin dataWindow) dim))
         || fgtb (vnth vsP dim) (f_of_Z (inth (imax dataWindow) dim))
      then false
      else isInBounds_from rest vsP dataWindow
  end.

(** Checks continuous coordinate against discrete coordinate bounds *)
Definition isInBounds (vsP : Vector F) (dataWindow : Box3i) : bool :=
  isInBounds_from [0; 1; 2]%nat vsP dataWindow.
End IsInBounds.

Module VoxelVolume.
Section VoxelVolume.
Context {F : Type} `{Externals F} `{!LinearFieldInterp F}.

(** [VoxelBuffer]: the fields of vectors a volume can hold. *)
Definition VoxelBuffer : Type := Field F (Vec3 F).

(** [IntersectionHandler::CPtr], by dynamic type. *)
Inductive IntersectionHandler : Type :=
  | UniformHandler (h : UniformMappingIntersection.t F)
  | FrustumHandler (h : FrustumMappingIntersection.t F).

(** The virtual [IntersectionHandler::intersect]. *)
Definition handler_intersect (h : IntersectionHandler) (wsRay : Ray F)
    (time : PTime F) : IntervalVec F :=
  match h with
  | UniformHandler u => UniformMappingIntersection.intersect u wsRay time
  | FrustumHandler f => FrustumMappingIntersection.intersect f wsRay time
  end.

(** The data members; [None] is the null pointer. *)
Record t : Type := mk {
  m_buffer : option VoxelBuffer;
  m_intersectionHandler : option IntersectionHandler
}.

(** A volume and the log. *)
Record World : Type := mkWorld {
  self : t;
  log : list LogEntry
}.

Record VolumeSampleState : Type := mkVolumeSampleState {
  wsP : Vector F;
  sample_time : PTime F
}.

Record RenderState : Type := mkRenderState {
  wsRay : Ray F;
  time : PTime F
}.

(** What [Field3DInputFile] finds under a file name: [None] when [open]
    fails, otherwise the layers [readVectorLayers<float>()] returns. *)
Variable disk : string -> option (list VoxelBuffer).

Definition Log_print (msg : string) : M World unit :=
  fun w => (Returned tt, mkWorld (self w) (log w ++ [LogPrint msg])).

Definition Log_warning (msg : string) : M World unit :=
  fun w => (Returned tt, mkWorld (self w) (log w ++ [LogWarning msg])).

Definition set_m_buffer (b : option VoxelBuffer) : M World unit :=
  fun w => (Returned tt,
  mkWorld (mk b (m_intersectionHandler (self w))) (log w)).

Definition set_m_intersectionHandler (h : IntersectionHandler)
  : M World unit :=
  fun w => (Returned tt, mkWorld (mk (m_buffer (self w)) (Some h)) (log w)).

(** [attributeNames()]; [None] when [m_buffer] is null, where the code
    dereferences a null pointer. *)
Definition attributeNames (v : t) : option (list string) :=
  match m_buffer v with
  | Some buffer => Some [attribute buffer]
  | None => None
  end.

(** [sample(state, attribute)] returns the color and the attribute with
    its cached index; [None] when the code dereferences a null
    [m_buffer] or a null mapping. *)
Definition sample (v : t) (state : VolumeSampleState)
    (attribute : VolumeAttr) : option (Color F * VolumeAttr) :=
  let resolved :=
  match attr_index attribute with
  | IndexNotSet =>
      match m_buffer v with
      | Some buffer =>
          Some (setupVolumeAttr attribute (Field3D.attribute buffer) 0)
      | None => None
      end
  | _ => Some attribute
  end in
  match resolved with
  | None => None
  | Some attribute =>
      match attr_index attribute with
      | IndexInvalid => Some (Colors_zero, attribute)
      | _ =>
          match m_buffer v with
          | None => None
          | Some buffer =>
              match mapping buffer with
              | None => None
              | Some m =>
                  let vsP := worldToVoxel m (wsP state) in
                  if negb (isInBounds vsP (dataWindow buffer))
                  then Some (Colors_zero, attribute)
                  else Some (LinearFieldInterp_sample buffer vsP,
                             attribute)
              end
          end
      end
  end.

(** [intersect(state)]; [None] when the assertion on the handler
    fails. *)
Definition intersect (v : t) (state : RenderState)
  : option (IntervalVec F) :=
  match m_intersectionHandler v with
  | Some h => Some (handler_intersect h (wsRay state) (time state))
  | None => None
  end.

Definition updateIntersectionHandler : M World unit :=
  w <- get ;;
  match m_buffer (self w) with
  | None => throw MissingBufferException
  | Some buffer =>
      match mapping buffer with
      | None => throw MissingMappingException
      | Some (MatrixMapping matrixMapping) =>
          set_m_intersectionHandler
            (UniformHandler (UniformMappingIntersection.make matrixMapping))
      | Some (FrustumMap frustumMapping) =>
          set_m_intersectionHandler
            (FrustumHandler (FrustumMappingIntersection.make frustumMapping))
      | Some (OtherMapping _) => throw UnsupportedMappingException
      end
  end.

Definition load (filename : string) : M World unit :=
  Log_print ("Loading voxel buffer: " ++ filename) ;;
  match disk filename with
  | None => Log_warning ("Couldn't load " ++ filename)
  | Some buffers =>
      match buffers with
      | [] =>
          Log_warning ("No <float> fields could be loaded from " ++ filename)
      | buffer0 :: _ =>
          match storage buffer0 with
          | Dense => set_m_buffer (Some buffer0)
          | Sparse => Log_warning ("No DenseField in: " ++ filename)
          end ;;
          updateIntersectionHandler
      end
  end.

Definition setBuffer (buffer : option VoxelBuffer) : M World unit :=
  set_m_buffer buffer ;;
  updateIntersectionHandler.
End VoxelVolume.
End VoxelVolume.

Arguments VoxelVolume.t F : clear implicits.
Arguments VoxelVolume.World F : clear implicits.
Arguments VoxelVolume.VoxelBuffer F : clear implicits.
Arguments VoxelVolume.IntersectionHandler F : clear implicits.
Arguments VoxelVolume.VolumeSampleState F : clear implicits.
Arguments VoxelVolume.RenderState F : clear implicits.

(* ------------------------------------------------------------------ *)
(** * Instances of the external functions *)
(* ------------------------------------------------------------------ *)

Module Instances.
Section Instances.
Context {F : Type} `{Scalar F}.
Local Open Scope scalar_scope.

(** One slab of the ray/box test: the parameters at which the ray is
    between [lo] and [hi] on one axis, intersected with [acc]. *)
Definition slab_axis (p d lo hi : F) (acc : option (F * F))
  : option (F * F) :=
  match acc with
  | None => None
  | Some (tNear, tFar) =>
      if d ==? f0
      then if (p <? lo) || (hi <? p) then None else Some (tNear, tFar)
      else
        let ta := (lo - p) / d in
        let tb := (hi - p) / d in
        let tNear' := std_max tNear (std_min ta tb) in
        let tFar' := std_min tFar (std_max ta tb) in
        if tFar' <? tNear' then None else Some (tNear', tFar')
  end.

(** Modelled from the spec: [Math::intersect(ray, box, t0, t1)] of
    [pvr/Math.h] is absent; it is a slab test of the ray against the
    box, which answers whether they overlap and, if so, the entry and
    exit parameters. *)
Definition slab_intersect (r : Ray F) (b : BBox F) : option (F * F) :=
  slab_axis (vz (pos r)) (vz (dir r)) (vz (bmin b)) (vz (bmax b))
    (slab_axis (vy (pos r)) (vy (dir r)) (vy (bmin b)) (vy (bmax b))
       (slab_axis (vx (pos r)) (vx (dir r)) (vx (bmin b)) (vx (bmax b))
          (Some (- fmaxval, fmaxval)))).

(** Modelled from the spec: [Math::cornerPoints(box)] of [pvr/Math.h] is
    absent; it lists the eight corners of the box, one per combination
    of minimum and maximum on the three axes, x changing fastest. *)
Definition cornerPoints (b : BBox F) : list (Vector F) :=
  [ V3 (vx (bmin b)) (vy (bmin b)) (vz (bmin b));
    V3 (vx (bmax b)) (vy (bmin b)) (vz (bmin b));
    V3 (vx (bmin b)) (vy (bmax b)) (vz (bmin b));
    V3 (vx (bmax b)) (vy (bmax b)) (vz (bmin b));
    V3 (vx (bmin b)) (vy (bmin b)) (vz (bmax b));
    V3 (vx (bmax b)) (vy (bmin b)) (vz (bmax b));
    V3 (vx (bmin b)) (vy (bmax b)) (vz (bmax b));
    V3 (vx (bmax b)) (vy (bmax b)) (vz (bmax b)) ].

Definition mrow (m : M44 F) (i : nat) : list F :=
  match i with
  | 0%nat => [m00 m; m01 m; m02 m; m03 m]
  | 1%nat => [m10 m; m11 m; m12 m; m13 m]
  | 2%nat => [m20 m; m21 m; m22 m; m23 m]
  | _ => [m30 m; m31 m; m32 m; m33 m]
  end.

Definition mget (m : M44 F) (i j : nat) : F := nth j (mrow m i) f0.

Definition det3 (a b c d e f g h i : F) : F :=
  a * (e * i - f * h) - b * (d * i - f * g) + c * (d * h - e * g).

Definition others (i : nat) : list nat :=
  filter (fun k => negb (Nat.eqb k i)) [0; 1; 2; 3]%nat.

Definition minor (m : M44 F) (i j : nat) : F :=
  match others i, others j with
  | [r0; r1; r2], [c0; c1; c2] =>
      det3 (mget m r0 c0) (mget m r0 c1) (mget m r0 c2)
        (mget m r1 c0) (mget m r1 c1) (mget m r1 c2)
        (mget m r2 c0) (mget m r2 c1) (mget m r2 c2)
  | _, _ => f0
  end.

Definition cofactor (m : M44 F) (i j : nat) : F :=
  if Nat.even (i + j) then minor m i j else - minor m i j.

Definition det4 (m : M44 F) : F :=
  m00 m * cofactor m 0 0 + m01 m * cofactor m 0 1
  + m02 m * cofactor m 0 2 + m03 m * cofactor m 0 3.

(** Imath's [Matrix44::inverse()] on an invertible matrix: the
    transposed cofactors over the determinant. *)
Definition inverse (m : M44 F) : M44 F :=
  let e i j := cofactor m j i / det4 m in
  mkM44 (e 0 0) (e 0 1) (e 0 2) (e 0 3)
        (e 1 0) (e 1 1) (e 1 2) (e 1 3)
        (e 2 0) (e 2 1) (e 2 2) (e 2 3)
        (e 3 0) (e 3 1) (e 3 2) (e 3 3)%nat.

#[global] Instance Externals_model : Externals F := {|
  Math_intersect := slab_intersect;
  Math_cornerPoints := cornerPoints;
  M44_inverse := inverse
|}.

Definition two : F := f1 + f1.
Definition eight : F := two * two * two.

(** A scaling of the unit cube to a cube of [eight] voxels a side. *)
Definition scale8 : M44 F :=
  mkM44 eight f0 f0 f0
    f0 eight f0 f0
    f0 f0 eight f0
    f0 f0 f0 f1.

Definition identity : M44 F :=
  mkM44 f1 f0 f0 f0
    f0 f1 f0 f0
    f0 f0 f1 f0
    f0 f0 f0 f1.

(** The Uniform mapping whose local space is world space. *)
Definition unit_mapping : MatrixFieldMapping F :=
  mkMatrixFieldMapping identity scale8.

(** A Frustum mapping: a camera at the origin that looks down the
    negative z axis, with the near plane at depth 1, the far plane at
    depth 2 and a field of view of 90 degrees; the local cube becomes
    [eight] voxels a side. *)
Definition camera_localToWorld (p : Vector F) : Vector F :=
  let d := f1 + vz p in
  V3 ((two * vx p - f1) * d) ((two * vy p - f1) * d) (- d).

Definition camera_worldToVoxel (p : Vector F) : Vector F :=
  let d := - vz p in
  V3 (((vx p / d + f1) / two) * eight)
    (((vy p / d + f1) / two) * eight)
    ((d - f1) * eight).

Definition camera : FrustumMapping F :=
  mkFrustumMapping camera_localToWorld camera_worldToVoxel.

(** A Frustum mapping without perspective: the local cube becomes the
    box [0,1] x [0,1] x [-2,-1] in front of a camera that looks down
    the negative z axis, [eight] voxels a side. *)
Definition ortho_localToWorld (p : Vector F) : Vector F :=
  V3 (vx p) (vy p) (- (f1 + vz p)).

Definition ortho_worldToVoxel (p : Vector F) : Vector F :=
  V3 (vx p * eight) (vy p * eight) ((- vz p - f1) * eight).

Definition ortho : FrustumMapping F :=
  mkFrustumMapping ortho_localToWorld ortho_worldToVoxel.

Definition data_window8 : Box3i := mkBox3i (mkV3i 0 0 0) (mkV3i 7 7 7).

(** A dense field, and a sparse one, of constant value. *)
Definition dense_field (name : string) (m : option (FieldMapping F))
  : VoxelVolume.VoxelBuffer F :=
  mkField Dense name m data_window8 (fun _ _ _ => V3 f1 f1 f1).

Definition sparse_field (name : string) (m : option (FieldMapping F))
  : VoxelVolume.VoxelBuffer F :=
  mkField Sparse name m data_window8 (fun _ _ _ => V3 f1 f1 f1).

(** A disk with three files: a dense field, a sparse field and a file
    without vector layers; every other name cannot be opened. *)
Definition disk (filename : string) : option (list (VoxelVolume.VoxelBuffer F)) :=
  if String.eqb filename "dense.f3d"
  then Some [dense_field "density" (Some (MatrixMapping unit_mapping))]
  else if String.eqb filename "sparse.f3d"
  then Some [sparse_field "density" (Some (MatrixMapping unit_mapping))]
  else if String.eqb filename "empty.f3d"
  then Some []
  else None.

(** A volume as its constructor leaves it, and an empty log. *)
Definition fresh : VoxelVolume.World F :=
  VoxelVolume.mkWorld (VoxelVolume.mk None None) [].
End Instances.

(** Field3D's [LinearFieldInterp::sample] in exact arithmetic: the eight
    voxels around the point, weighted by the fractions of the distance to
    the voxel centres, with indices clamped to the data window. *)
Definition trilinear (data : Field R (Vec3 R)) (vsP : Vec3 R) : Vec3 R :=
  let p := vsub vsP (V3 0.5 0.5 0.5)%R in
  let c1 := mkV3i (Zfloor (vx p)) (Zfloor (vy p)) (Zfloor (vz p)) in
  let f1x := (IZR (ix c1 + 1) - vx p)%R in
  let f1y := (IZR (iy c1 + 1) - vy p)%R in
  let f1z := (IZR (iz c1 + 1) - vz p)%R in
  let dw := dataWindow data in
  let cl lo hi i := Z.max lo (Z.min i hi) in
  let x1 := cl (ix (imin dw)) (ix (imax dw)) (ix c1) in
  let x2 := cl (ix (imin dw)) (ix (imax dw)) (ix c1 + 1)%Z in
  let y1 := cl (iy (imin dw)) (iy (imax dw)) (iy c1) in
  let y2 := cl (iy (imin dw)) (iy (imax dw)) (iy c1 + 1)%Z in
  let z1 := cl (iz (imin dw)) (iz (imax dw)) (iz c1) in
  let z2 := cl (iz (imin dw)) (iz (imax dw)) (iz c1 + 1)%Z in
  let v := value data in
  let mix w a b := vadd (vscale a w) (vscale b (1 - w)%R) in
  mix f1x (mix f1y (mix f1z (v x1 y1 z1) (v x1 y1 z2))
                   (mix f1z (v x1 y2 z1) (v x1 y2 z2)))
          (mix f1y (mix f1z (v x2 y1 z1) (v x2 y1 z2))
                   (mix f1z (v x2 y2 z1) (v x2 y2 z2))).

#[global] Instance LinearFieldInterp_R : LinearFieldInterp R := {|
  LinearFieldInterp_sample := trilinear
|}.

(** A ray down the axis of [ortho], from the plane z = 0, in exact
    arithmetic. *)
Definition ortho_ray : Ray R :=
  mkLine (V3 0.5 0.5 0)%R (V3 0 0 (-1))%R.

(** A field of numbers that is zero but for the value one at the voxel
    [(5, 5, 5)]. *)
Definition unit_voxel_field : Field R R :=
  mkField Dense "density" None (mkBox3i (mkV3i 0 0 0) (mkV3i 9 9 9))
    (fun i j k =>
       if (Z.eqb i 5 && Z.eqb j 5 && Z.eqb k 5)%bool then 1%R else 0%R).

(** The frustum handler of [camera], in binary64. *)
Definition camera_handler : FrustumMappingIntersection.t float :=
  FrustumMappingIntersection.make camera.

(** A ray from the apex down the axis of the frustum. *)
Definition ray_through : Ray float :=
  mkLine (V3 0 0 0)%float (V3 0 0 (-1))%float.

(** A ray down the axis that starts beyond the far plane: the frustum is
    behind its origin. *)
Definition ray_beyond : Ray float :=
  mkLine (V3 0 0 (-3))%float (V3 0 0 (-1))%float.

(** A ray down the axis that starts on the far plane. *)
Definition ray_on_far_plane : Ray float :=
  mkLine (V3 0 0 (-2))%float (V3 0 0 (-1))%float.
End Instances.

(* ------------------------------------------------------------------ *)
(** * The specification's descriptions *)
(* ------------------------------------------------------------------ *)

Module Spec.
Section Intervals.
Context {F : Type} `{Externals F}.
Local Open Scope scalar_scope.

(** The Euclidean distance between two points. *)
Definition euclidean_distance (a b : Vec3 F) : F :=
  fsqrt ((vx b - vx a) * (vx b - vx a)
         + (vy b - vy a) * (vy b - vy a)
         + (vz b - vz a) * (vz b - vz a)).

(** [(t1 - t0) / numSamples], where [numSamples] is the voxel-space
    distance between the points of the ray at [t0] and at [t1]. *)
Definition step_length (toVoxel : Vec3 F -> Vec3 F) (ray : Ray F)
    (t0 t1 : F) : F :=
  let voxelNear := toVoxel (line_at ray t0) in
  let voxelFar := toVoxel (line_at ray t1) in
  let numSamples := euclidean_distance voxelNear voxelFar in
  (t1 - t0) / numSamples.

(** The ray in local space: the position by the point transform, the
    direction by the vector transform. *)
Definition to_local (worldToLocal : M44 F) (ray : Ray F) : Ray F :=
  mkLine (multVecMatrix worldToLocal (pos ray))
    (multDirMatrix worldToLocal (dir ray)).

(** Steps 1 to 5 of [UniformMappingIntersection.intersect]. *)
Definition uniform_intersect (worldToLocal worldToVoxel : M44 F)
    (ray : Ray F) : IntervalVec F :=
  match Math_intersect (to_local worldToLocal ray) Bounds_zeroOne with
  | None => []
  | Some (t0, t1) =>
      [mkInterval t0 t1
          (step_length (multVecMatrix worldToVoxel) ray t0 t1)]
  end.
End Intervals.

Section Frustum.
Local Open Scope R_scope.

Inductive Constraint : Type := Far | Near | NoConstraint.

(** The class of a plane, by the sign of [dot(ray.direction,
    plane.normal)]. *)
Definition classify (ray : Ray R) (p : Plane R) : Constraint :=
  let d := dot (dir ray) (normal p) in
  if Rlt_dec 0 d then Far
  else if Rlt_dec d 0 then Near
  else NoConstraint.

(** The parameter at which the ray meets the plane. *)
Definition ray_plane_parameter (ray : Ray R) (p : Plane R) : R :=
  (distance p - dot (normal p) (pos ray)) / dot (normal p) (dir ray).

Definition constrain (ray : Ray R) (acc : R * R) (p : Plane R) : R * R :=
  let t := ray_plane_parameter ray p in
  match classify ray p with
  | Far => (fst acc, Rmin (snd acc) t)
  | Near => (Rmax (fst acc) t, snd acc)
  | NoConstraint => acc
  end.

(** Steps 1 to 4 of [FrustumMappingIntersection.intersect]; the fold
    starts from the pair the code starts from. *)
Definition frustum_intersect (planes : list (Plane R))
    (toVoxel : Vec3 R -> Vec3 R) (ray : Ray R) : IntervalVec R :=
  let bounds := fold_left (constrain ray) planes (- dbl_max, dbl_max) in
  if Rlt_dec (fst bounds) (snd bounds) then
    let t0 := Rmax (fst bounds) 0 in
    [mkInterval t0 (snd bounds) (step_length toVoxel ray t0 (snd bounds))]
  else [].
End Frustum.

Section Sample.
Context {F : Type} `{Scalar F}.
Local Open Scope scalar_scope.

(** The continuous coordinate is below the minimum or above the maximum
    of the data window on this axis. *)
Definition outside_axis (x : F) (lo hi : Z) : bool :=
  (x <? f_of_Z lo) || (f_of_Z hi <? x).

(** The point is outside the data window: it is so on some axis. *)
Definition outside (vsP : Vec3 F) (dw : Box3i) : bool :=
  outside_axis (vx vsP) (ix (imin dw)) (ix (imax dw))
  || outside_axis (vy vsP) (iy (imin dw)) (iy (imax dw))
  || outside_axis (vz vsP) (iz (imin dw)) (iz (imax dw)).

(** The attribute after resolution against the name of the buffer. *)
Definition resolve (attribute : VolumeAttr) (name : string) : VolumeAttr :=
  match attr_index attribute with
  | IndexNotSet =>
      if String.eqb (attr_name attribute) name
      then mkVolumeAttr (attr_name attribute) (IndexValid 0)
      else mkVolumeAttr (attr_name attribute) IndexInvalid
  | _ => attribute
  end.

Definition is_invalid (attribute : VolumeAttr) : bool :=
  match attr_index attribute with
  | IndexInvalid => true
  | _ => false
  end.
End Sample.

Section Gaussian.
Context {Data_T : Type} `{DataT Data_T}.
Local Open Scope R_scope.

(** The per-axis kernel, with alpha = 2 and w = 2. *)
Definition kernel (x : R) : R := Rmax 0 (exp (- 2 * x²) - exp (- 8)).

(** [lo; lo + 1; ...], [n] of them. *)
Fixpoint interval (lo : Z) (n : nat) : list Z :=
  match n with
  | O => []
  | S n' => lo :: interval (lo + 1) n'
  end.

(** The 4 x 4 x 4 neighbourhood with origin [c], as triples
    [(i, j, k)]. *)
Definition neighbourhood (c : V3i) : list (Z * Z * Z) :=
  flat_map (fun k =>
    flat_map (fun j =>
      map (fun i => (i, j, k)) (interval (ix c) 4))
      (interval (iy c) 4))
    (interval (iz c) 4).

Definition clamp (lo hi i : Z) : Z := Z.max lo (Z.min i hi).

Definition sum_R (l : list R) : R := fold_right Rplus 0 l.
Definition sum_D (l : list Data_T) : Data_T := fold_right d_add d_zero l.

(** Each axis of the point clamped to at least 0.5. *)
Definition clamped (p : Vec3 R) : Vec3 R :=
  V3 (Rmax 0.5 (vx p)) (Rmax 0.5 (vy p)) (Rmax 0.5 (vz p)).

(** The origin [c = floor(clampedP - 0.5) - 1] of the neighbourhood. *)
Definition origin (clampedP : Vec3 R) : V3i :=
  mkV3i (Zfloor (vx clampedP - 0.5) - 1)
        (Zfloor (vy clampedP - 0.5) - 1)
        (Zfloor (vz clampedP - 0.5) - 1).

(** The separable weight of the tap [(i, j, k)]: the kernel at the offset
    of the voxel centre from the clamped point, on each axis. *)
Definition weight (clampedP : Vec3 R) (t : Z * Z * Z) : R :=
  let '(i, j, k) := t in
  kernel ((IZR i + 0.5) - vx clampedP)
  * kernel ((IZR j + 0.5) - vy clampedP)
  * kernel ((IZR k + 0.5) - vz clampedP).

(** The value of the tap [(i, j, k)]: the voxel at the index clamped to the
    data window. *)
Definition lookup (data : Field R Data_T) (t : Z * Z * Z) : Data_T :=
  let '(i, j, k) := t in
  let dw := dataWindow data in
  value data (clamp (ix (imin dw)) (ix (imax dw)) i)
             (clamp (iy (imin dw)) (iy (imax dw)) j)
             (clamp (iz (imin dw)) (iz (imax dw)) k).

(** The point is below [2^31 - 2.5] on each axis: the last index of its
    neighbourhood, [floor(clampedP - 0.5) + 2], is below the largest
    [int]. *)
Definition int_limit : R := 2147483645.5.

Definition within_int (p : Vec3 R) : Prop :=
  vx p < int_limit /\ vy p < int_limit /\ vz p < int_limit.

(** The weighted mean over the neighbourhood. *)
Definition gaussian_sample (data : Field R Data_T) (p : Vec3 R) : Data_T :=
  let clampedP := clamped p in
  let taps := neighbourhood (origin clampedP) in
  d_div (sum_D (map (fun t => d_scale (weight clampedP t) (lookup data t))
                    taps))
        (sum_R (map (weight clampedP) taps)).
End Gaussian.

Section Orchestrator.
Context {F : Type} `{Externals F}.

(** A call that ends with an exception. *)
Definition throws {A St : Type} (r : outcome A * St) : Prop :=
  exists e : Exception, fst r = Thrown e.

(** The mapping is neither the Uniform nor the Frustum variant. *)
Definition unsupported (m : FieldMapping F) : Prop :=
  (forall mm, m <> MatrixMapping mm) /\ (forall fm, m <> FrustumMap fm).

(** What the reader finds holds no field the volume can use: the file
    cannot be opened, has no vector layer, or its first layer is not a
    dense field. *)
Definition no_usable_field (found : option (list (VoxelVolume.VoxelBuffer F)))
  : bool :=
  match found with
  | None => true
  | Some [] => true
  | Some (buffer0 :: _) =>
      match storage buffer0 with
      | Dense => false
      | Sparse => true
      end
  end.
End Orchestrator.

Section StepLength.
Context {F : Type} `{Externals F}.

(** The world-to-voxel map a handler measures [numSamples] with. *)
Definition handler_toVoxel (h : VoxelVolume.IntersectionHandler F)
  : Vec3 F -> Vec3 F :=
  match h with
  | VoxelVolume.UniformHandler u =>
      multVecMatrix (UniformMappingIntersection.m_worldToVoxel u)
  | VoxelVolume.FrustumHandler f =>
      fm_worldToVoxel (FrustumMappingIntersection.m_mapping f)
  end.
End StepLength.

(** A binary64 number that is strictly positive and finite. *)
Definition positive_finite (x : float) : bool :=
  PrimFloat.ltb PrimFloat.zero x && PrimFloat.is_finite x.

(** An interval of binary64 numbers with [t0 <= t1]. *)
Definition ordered (iv : Interval float) : bool :=
  PrimFloat.leb (t0 iv) (t1 iv).

(** The laws of [Data_T] the sums rely on. *)
Class DataTLaws (D : Type) `{DataT D} : Prop := {
  d_add_assoc : forall a b c : D, d_add a (d_add b c) = d_add (d_add a b) c;
  d_add_zero_l : forall a : D, d_add d_zero a = a;
  d_add_zero_r : forall a : D, d_add a d_zero = a
}.
Arguments DataTLaws D {_}.
End Spec.

(* ------------------------------------------------------------------ *)
(** * PyPvr: the helper functions of the python module *)
(* ------------------------------------------------------------------ *)

(** The [assign] helpers of [libpvr/python/PyPvr.cpp].  The python object
    [o] is read through a [boost::python::stl_input_iterator<T>]: it is
    modelled by the list of the values the iterator yields, [begin == end]
    by the empty list and [*begin++] by taking the head.  The object [v]
    is passed by reference and written component by component, so a call
    that throws leaves behind the components written before the throw. *)
Module PyPvr.

(** [Vec3AssignException(msg)], declared with [DECLARE_PVR_RT_EXC]; [msg]
    is the argument of the constructor. *)
Inductive Vec3AssignException : Type :=
| mkVec3AssignException (msg : string).

(** How a call ends, with the object as the call leaves it. *)
Inductive result (V : Type) : Type :=
| Done (v : V)
| Raised (e : Vec3AssignException) (v : V).
Arguments Done {V} v.
Arguments Raised {V} e v.

(** [Imath::Vec2<T>]. *)
Record Vec2 (T : Type) : Type := V2 { x2 : T; y2 : T }.
Arguments V2 {T} x2 y2.
Arguments x2 {T} _.
Arguments y2 {T} _.

(** [Imath::Quat<T>]: the scalar [r] and the vector [v]. *)
Record Quat (T : Type) : Type := mkQuat { qr : T; qv : Vec3 T }.
Arguments mkQuat {T} qr qv.
Arguments qr {T} _.
Arguments qv {T} _.

Section Assign.
Context {T : Type}.

(** [vec_assign(v, o)]: [v.assign(begin, end)]. *)
Definition vec_assign (v : list T) (o : list T) : list T := o.

Definition Vec2_assign (v : Vec2 T) (o : list T) : result (Vec2 T) :=
  match o with
  | [] => Raised (mkVec3AssignException "No elements in list") v
  | a :: o1 =>
      let v := V2 a (y2 v) in
      match o1 with
      | [] => Raised (mkVec3AssignException "Only one element in list") v
      | b :: _ => Done (V2 (x2 v) b)
      end
  end.

Definition Vec3_assign (v : Vec3 T) (o : list T) : result (Vec3 T) :=
  match o with
  | [] => Raised (mkVec3AssignException "No elements in list") v
  | a :: o1 =>
      let v := V3 a (vy v) (vz v) in
      match o1 with
      | [] => Raised (mkVec3AssignException "Only one element in list") v
      | b :: o2 =>
          let v := V3 (vx v) b (vz v) in
          match o2 with
          | [] =>
              Raised (mkVec3AssignException "Only two elements in list") v
          | c :: _ => Done (V3 (vx v) (vy v) c)
          end
      end
  end.

Definition Quat_assign (q : Quat T) (o : list T) : result (Quat T) :=
  match o with
  | [] => Raised (mkVec3AssignException "No elements in list") q
  | a :: o1 =>
      let q := mkQuat a (qv q) in
      match o1 with
      | [] => Raised (mkVec3AssignException "Only one element in list") q
      | b :: o2 =>
          let q := mkQuat (qr q) (V3 b (vy (qv q)) (vz (qv q))) in
          match o2 with
          | [] =>
              Raised (mkVec3AssignException "Only two elements in list") q
          | c :: o3 =>
              let q := mkQuat (qr q) (V3 (vx (qv q)) c (vz (qv q))) in
              match o3 with
              | [] =>
                  Raised (mkVec3AssignException "Only two elements in list")
                         q
              | d :: _ => Done (mkQuat (qr q) (V3 (vx (qv q)) (vy (qv q)) d))
              end
          end
      end
  end.
End Assign.
End PyPvr.

(* ------------------------------------------------------------------ *)
(** * Notions the further properties are stated with *)
(* ------------------------------------------------------------------ *)

Module Props.
Section Volumes.
Context {F : Type} `{Externals F}.

(** The handler [updateIntersectionHandler] builds for a mapping, if it
    builds one. *)
Definition handler_for (m : FieldMapping F)
  : option (VoxelVolume.IntersectionHandler F) :=
  match m with
  | MatrixMapping mm =>
      Some (VoxelVolume.UniformHandler (UniformMappingIntersection.make mm))
  | FrustumMap fm =>
      Some (VoxelVolume.FrustumHandler (FrustumMappingIntersection.make fm))
  | OtherMapping _ => None
  end.

(** A volume is consistent when it is empty (no buffer, no handler) or
    holds a buffer together with the handler of that buffer's mapping. *)
Definition consistent (v : VoxelVolume.t F) : Prop :=
  match VoxelVolume.m_buffer v with
  | None => VoxelVolume.m_intersectionHandler v = None
  | Some b =>
      exists m h,
        mapping b = Some m /\ handler_for m = Some h
        /\ VoxelVolume.m_intersectionHandler v = Some h
  end.

(** The ray does not run parallel to the plane, as [intersectT] tests
    it. *)
Definition crosses (ray : Ray F) (p : Plane F) : bool :=
  negb (feqb (dot (normal p) (dir ray)) f0).
End Volumes.

Section Geometry.
Local Open Scope R_scope.

(** The point is on the inner side of the plane, the side its normal
    points away from. *)
Definition inside (p : Plane R) (x : Vec3 R) : Prop :=
  dot (normal p) x <= distance p.

(** The matrix is affine: its last column is (0, 0, 0, 1), so the
    homogeneous divide of [multVecMatrix] is by one. *)
Definition affine (m : M44 R) : Prop :=
  m03 m = 0 /\ m13 m = 0 /\ m23 m = 0 /\ m33 m = 1.

(** The index is in the data window. *)
Definition in_window (dw : Box3i) (i j k : Z) : Prop :=
  (ix (imin dw) <= i <= ix (imax dw))%Z
  /\ (iy (imin dw) <= j <= iy (imax dw))%Z
  /\ (iz (imin dw) <= k <= iz (imax dw))%Z.

(** The data window holds at least one voxel. *)
Definition nonempty (dw : Box3i) : Prop :=
  (ix (imin dw) <= ix (imax dw))%Z
  /\ (iy (imin dw) <= iy (imax dw))%Z
  /\ (iz (imin dw) <= iz (imax dw))%Z.
End Geometry.

(** A field like [unit_voxel_field] inside the data window and 7 at every
    index outside it. *)
Definition unit_voxel_field_outside : Field R R :=
  mkField Dense "density" None (mkBox3i (mkV3i 0 0 0) (mkV3i 9 9 9))
    (fun i j k =>
       if ((0 <=? i) && (i <=? 9) && (0 <=? j) && (j <=? 9)
           && (0 <=? k) && (k <=? 9))%Z%bool
       then value Instances.unit_voxel_field i j k
       else 7%R).

(** The C++ test [x != x], which holds of a NaN only. *)
Definition is_nan (x : float) : bool := negb (PrimFloat.eqb x x).

(** A volume that holds a dense field of the unit mapping and the handler
    of that mapping, in exact arithmetic. *)
Definition unit_volume : VoxelVolume.t R :=
  VoxelVolume.mk
    (Some (Instances.dense_field "density"
             (Some (MatrixMapping Instances.unit_mapping))))
    (Some (VoxelVolume.UniformHandler
             (UniformMappingIntersection.make Instances.unit_mapping))).

(** The uniform handler of a unit cube of eight voxels a side, in exact
    arithmetic, and a ray through the centre of the cube. *)
Definition unit_handler : UniformMappingIntersection.t R :=
  UniformMappingIntersection.mk Instances.identity Instances.identity
                                Instances.scale8.

Definition centre_ray : Ray R :=
  mkLine (V3 0.5 0.5 (-1))%R (V3 0 0 1)%R.

(** The frustum handler of [ortho], in exact arithmetic. *)
Definition ortho_handler : FrustumMappingIntersection.t R :=
  FrustumMappingIntersection.make (H0 := Instances.Externals_model)
                                  Instances.ortho.
End Props.

(* ------------------------------------------------------------------ *)
(** * Facts about the scalars *)
(* ------------------------------------------------------------------ *)

Section RealScalars.
Local Open Scope R_scope.

Lemma Rltb_true (x y : R) : x < y -> Rltb x y = true.
Proof. intros Hlt. unfold Rltb. destruct (Rlt_dec x y); [reflexivity | lra]. Qed.

Lemma Rltb_false (x y : R) : y <= x -> Rltb x y = false.
Proof. intros Hle. unfold Rltb. destruct (Rlt_dec x y); [lra | reflexivity]. Qed.

Lemma Reqb_true (x y : R) : x = y -> Reqb x y = true.
Proof. intros Heq. unfold Reqb. destruct (Req_dec_T x y); [reflexivity | lra]. Qed.

Lemma Reqb_false (x y : R) : x <> y -> Reqb x y = false.
Proof.
  intros Hne. unfold Reqb. destruct (Req_dec_T x y); [contradiction | reflexivity].
Qed.

Lemma std_max_Rmax (a b : R) : std_max a b = Rmax a b.
Proof.
  unfold std_max, Rmax; cbn. unfold Rltb.
  destruct (Rlt_dec a b), (Rle_dec a b); lra.
Qed.

Lemma std_min_Rmin (a b : R) : std_min a b = Rmin a b.
Proof.
  unfold std_min, Rmin; cbn. unfold Rltb.
  destruct (Rlt_dec b a), (Rle_dec a b); lra.
Qed.

Lemma dot_comm (a b : Vec3 R) : dot a b = dot b a.
Proof. unfold dot; cbn. ring. Qed.

Lemma dot_self_nonneg (a : Vec3 R) : 0 <= dot a a.
Proof. unfold dot; cbn. nra. Qed.

Lemma dot_self_pos (a : Vec3 R) : a <> V3 0 0 0 -> 0 < dot a a.
Proof.
  destruct a as [x y z]; intros Hne. unfold dot; cbn.
  destruct (Req_dec_T x 0) as [Hx | Hx];
    [destruct (Req_dec_T y 0) as [Hy | Hy];
      [destruct (Req_dec_T z 0) as [Hz | Hz] | ] | ].
  - subst. contradiction.
  - nra.
  - nra.
  - nra.
Qed.

Lemma vsub_zero (a b : Vec3 R) : vsub b a = V3 0 0 0 -> a = b.
Proof.
  destruct a, b; unfold vsub; cbn. intros Heq.
  injection Heq as Hx Hy Hz. f_equal; lra.
Qed.

(** The length of the difference of two distinct points is positive. *)
Lemma length_vsub_pos (a b : Vec3 R) : a <> b -> 0 < length (vsub b a).
Proof.
  intros Hne. unfold length.
  change (0 < R_sqrt.sqrt (dot (vsub b a) (vsub b a))). apply sqrt_lt_R0.
  apply dot_self_pos. intros Hz. apply Hne. now apply vsub_zero.
Qed.
End RealScalars.

(* ------------------------------------------------------------------ *)
(** * The intersection handlers meet their description *)
(* ------------------------------------------------------------------ *)

(** C1: for every world-space ray, [UniformMappingIntersection::intersect]
    takes the ray to local space, tests it against the unit box, returns the
    empty list when the test finds no overlap and otherwise the one interval
    [(t0, t1, stepLength)] with [stepLength = (t1 - t0) / numSamples], where
    [numSamples] is the voxel-space Euclidean distance between [ray(t0)] and
    [ray(t1)].  Holds in every arithmetic, binary64 included. *)
Theorem uniform_intersect_correct
    {F : Type} `{Externals F}
    (self : UniformMappingIntersection.t F) (wsRay : Ray F) (time : PTime F) :
  UniformMappingIntersection.intersect self wsRay time
  = Spec.uniform_intersect (UniformMappingIntersection.m_worldToLocal self)
                           (UniformMappingIntersection.m_worldToVoxel self)
                           wsRay.
Proof.
  unfold UniformMappingIntersection.intersect, Spec.uniform_intersect,
    Spec.to_local.
  destruct (Math_intersect _ _) as [[a b] | ]; reflexivity.
Qed.

Section FrustumRefinement.
Local Open Scope R_scope.

(** One turn of the loop is one constraint of the description. *)
Lemma plane_step_constrain (ray : Ray R) (acc : R * R) (p : Plane R) :
  FrustumMappingIntersection.plane_step ray acc p = Spec.constrain ray acc p.
Proof.
  destruct acc as [a b].
  unfold FrustumMappingIntersection.plane_step, Spec.constrain,
    Spec.classify, Spec.ray_plane_parameter, intersectT, fgtb.
  rewrite (dot_comm (dir ray) (normal p)).
  set (d := dot (normal p) (dir ray)).
  set (n := dot (normal p) (pos ray)).
  cbn [feqb fltb f0 fopp fdiv fsub Scalar_R fst snd].
  destruct (Req_dec_T d 0) as [Hd | Hd].
  - rewrite (Reqb_true Hd).
    destruct (Rlt_dec 0 d); [lra | ]. destruct (Rlt_dec d 0); [lra | ].
    reflexivity.
  - rewrite (Reqb_false Hd).
    assert (Ht : - (n - distance p) / d = (distance p - n) / d)
      by (field; exact Hd).
    rewrite Ht.
    destruct (Rlt_dec 0 d) as [Hpos | Hnpos].
    + rewrite (Rltb_true Hpos), std_min_Rmin. reflexivity.
    + rewrite Rltb_false by lra.
      destruct (Rlt_dec d 0); [ | lra].
      rewrite std_max_Rmax. reflexivity.
Qed.

Lemma plane_bounds_constrain (self : FrustumMappingIntersection.t R)
    (ray : Ray R) :
  FrustumMappingIntersection.plane_bounds self ray
  = fold_left (Spec.constrain ray)
    (FrustumMappingIntersection.m_planes self)
    (- dbl_max, dbl_max).
Proof.
  unfold FrustumMappingIntersection.plane_bounds.
  change (@fopp R Scalar_R (@fmaxval R Scalar_R), @fmaxval R Scalar_R)
    with (- dbl_max, dbl_max).
  generalize (- dbl_max, dbl_max).
  induction (FrustumMappingIntersection.m_planes self) as [ | p ps IH];
    intros acc; cbn [fold_left].
  - reflexivity.
  - rewrite plane_step_constrain. apply IH.
Qed.
End FrustumRefinement.

(** C2: in exact arithmetic, for every world-space ray,
    [FrustumMappingIntersection::intersect] folds over the precomputed
    planes, a plane with [dot(ray.direction, plane.normal) > 0] being a far
    constraint ([t1 = min(t1, t)]), one with a negative dot a near
    constraint ([t0 = max(t0, t)]) and a parallel plane no constraint; when
    the resulting [t0 < t1] it clamps [t0 = max(t0, 0)] and returns the one
    interval with [stepLength] as in the uniform case, and when [t0 >= t1]
    it returns the empty list. *)
Theorem frustum_intersect_correct
    (self : FrustumMappingIntersection.t R) (wsRay : Ray R) (time : PTime R) :
  FrustumMappingIntersection.intersect self wsRay time
  = Spec.frustum_intersect
      (FrustumMappingIntersection.m_planes self)
      (fm_worldToVoxel (FrustumMappingIntersection.m_mapping self))
      wsRay.
Proof.
  unfold FrustumMappingIntersection.intersect, Spec.frustum_intersect.
  rewrite plane_bounds_constrain.
  destruct (fold_left _ _ _) as [a b]. cbn [fst snd].
  change (@fltb R Scalar_R a b) with (Rltb a b). unfold Rltb.
  destruct (Rlt_dec a b); [ | reflexivity].
  rewrite std_max_Rmax. reflexivity.
Qed.

(* ------------------------------------------------------------------ *)
(** * The intervals the handlers return *)
(* ------------------------------------------------------------------ *)

(** The frustum handler on a ray through the frustum of [camera]: the ray
    enters at the near plane and leaves at the far plane. *)
Example camera_ray_through :
  FrustumMappingIntersection.intersect
    Instances.camera_handler Instances.ray_through 0%float
  = [mkInterval 1%float 2%float 0.125%float].
Proof. vm_compute. reflexivity. Qed.

(** The uniform handler of the unit mapping, with the slab test for
    [Math::intersect]: a ray through the centre of the unit cube enters and
    leaves at the faces of the box, and a ray beside the cube finds
    nothing. *)
Example uniform_ray_through_centre :
  UniformMappingIntersection.intersect
    (UniformMappingIntersection.make Instances.unit_mapping)
    (mkLine (V3 0.5 0.5 (-1)) (V3 0 0 1))%float 0%float
  = [mkInterval 1%float 2%float 0.125%float].
Proof. vm_compute. reflexivity. Qed.

Example uniform_ray_beside :
  UniformMappingIntersection.intersect
    (UniformMappingIntersection.make Instances.unit_mapping)
    (mkLine (V3 2 0.5 (-1)) (V3 0 0 1))%float 0%float
  = [].
Proof. vm_compute. reflexivity. Qed.

Section IntervalOrder.
Context {E : Externals R}.
Local Open Scope R_scope.

(** The frustum handler never returns an interval that starts behind the
    origin of the ray ... *)
Lemma frustum_interval_t0_nonneg
    (f : FrustumMappingIntersection.t R) (ray : Ray R) (time : PTime R)
    (iv : Interval R) :
  In iv (FrustumMappingIntersection.intersect f ray time) -> 0 <= t0 iv.
Proof.
  unfold FrustumMappingIntersection.intersect.
  destruct (FrustumMappingIntersection.plane_bounds f ray) as [a b].
  destruct (fltb a b); [ | intros []].
  intros [<- | []]; cbn [t0]. rewrite std_max_Rmax. apply Rmax_r.
Qed.

(** ... and the interval it returns is ordered exactly when the ray leaves
    the frustum at or after its origin. *)
Lemma frustum_interval_ordered_iff
    (f : FrustumMappingIntersection.t R) (ray : Ray R) (time : PTime R)
    (iv : Interval R) :
  In iv (FrustumMappingIntersection.intersect f ray time) ->
    (t0 iv <= t1 iv <-> 0 <= t1 iv).
Proof.
  unfold FrustumMappingIntersection.intersect.
  destruct (FrustumMappingIntersection.plane_bounds f ray) as [a b].
  change (fltb a b) with (Rltb a b). unfold Rltb.
  destruct (Rlt_dec a b) as [Hlt | ]; [ | intros []].
  intros [<- | []]; cbn [t0 t1]. rewrite std_max_Rmax.
  change (@f0 R Scalar_R) with 0.
  unfold Rmax. destruct (Rle_dec a 0); split; lra.
Qed.

(** The uniform handler returns what the box test returns: an ordered
    interval if the test only answers ordered pairs. *)
Lemma uniform_interval_ordered
    (u : UniformMappingIntersection.t R) (ray : Ray R) (time : PTime R)
    (iv : Interval R) :
  (forall r b a c, Math_intersect r b = Some (a, c) -> a <= c) ->
    In iv (UniformMappingIntersection.intersect u ray time) ->
    t0 iv <= t1 iv.
Proof.
  intros Hbox. unfold UniformMappingIntersection.intersect.
  destruct (Math_intersect _ _) as [[a c] | ] eqn:Hi; [ | intros []].
  intros [<- | []]; cbn [t0 t1]. exact (Hbox _ _ _ _ Hi).
Qed.
End IntervalOrder.

(** The six planes the constructor builds for [camera]: the four sides
    through the apex, the near plane z = -1 and the far plane z = -2, each
    with its normal pointing out of the frustum. *)
Example camera_handler_planes :
  let h := PrimFloat.div 1 (PrimFloat.sqrt 2) in
  FrustumMappingIntersection.m_planes Instances.camera_handler
  = [ mkPlane (V3 (PrimFloat.opp h) 0 h) 0; mkPlane (V3 h (-0) h) 0;
      mkPlane (V3 0 (PrimFloat.opp h) h) 0; mkPlane (V3 (-0) h h) 0;
      mkPlane (V3 0 0 1) (-1); mkPlane (V3 0 0 (-1)) 2 ]%float.
Proof. vm_compute. reflexivity. Qed.

(** C3: evaluation at the failing input.  For the ray [ray_beyond], which
    starts beyond the far plane of the frustum and points away from it, the
    loop leaves [t0 = -2 < t1 = -1]; the clamp then raises [t0] to [0] and
    the handler returns the interval [(0, -1, -0.125)], in which
    [t0 > t1] and [stepLength < 0]. *)
Theorem frustum_interval_behind_origin :
  FrustumMappingIntersection.plane_bounds
    Instances.camera_handler Instances.ray_beyond
  = ((-2)%float, (-1)%float)
  /\ FrustumMappingIntersection.intersect
       Instances.camera_handler Instances.ray_beyond 0%float
     = [mkInterval 0%float (-1)%float (-0.125)%float]
  /\ Spec.ordered (mkInterval 0%float (-1)%float (-0.125)%float) = false.
Proof. repeat split; vm_compute; reflexivity. Qed.

(** C4, as stated, fails: for the ray [ray_on_far_plane], which starts on
    the far plane of the frustum and points out of it, the handler returns
    one interval whose two end points are the same voxel-space point, so
    [numSamples = 0] and [stepLength] is [0 / 0], not a number: it is
    neither strictly positive nor finite. *)
Lemma stepLength_nan_on_far_plane :
  exists iv : Interval float,
    FrustumMappingIntersection.intersect
      Instances.camera_handler Instances.ray_on_far_plane 0%float = [iv]
    /\ PrimFloat.is_nan (stepLength iv) = true
    /\ Spec.positive_finite (stepLength iv) = false.
Proof.
  exists (mkInterval 0%float (-0)%float PrimFloat.nan).
  repeat split; vm_compute; reflexivity.
Qed.

Section StepLengthPositive.
Context {E : Externals R}.
Local Open Scope R_scope.

Lemma uniform_stepLength_positive
    (u : UniformMappingIntersection.t R) (ray : Ray R) (time : PTime R)
    (iv : Interval R) :
  In iv (UniformMappingIntersection.intersect u ray time) ->
    t0 iv < t1 iv ->
    multVecMatrix (UniformMappingIntersection.m_worldToVoxel u)
    (line_at ray (t0 iv))
  <> multVecMatrix (UniformMappingIntersection.m_worldToVoxel u)
    (line_at ray (t1 iv)) ->
    0 < stepLength iv.
Proof.
  unfold UniformMappingIntersection.intersect.
  destruct (Math_intersect _ _) as [[a b] | ]; [ | intros []].
  intros [<- | []]; cbn [t0 t1 stepLength]. intros Hlt Hne.
  apply Rdiv_lt_0_compat.
  - change (0 < b - a). lra.
  - apply length_vsub_pos. exact Hne.
Qed.

Lemma frustum_stepLength_positive
    (f : FrustumMappingIntersection.t R) (ray : Ray R) (time : PTime R)
    (iv : Interval R) :
  In iv (FrustumMappingIntersection.intersect f ray time) ->
    t0 iv < t1 iv ->
    fm_worldToVoxel (FrustumMappingIntersection.m_mapping f)
    (line_at ray (t0 iv))
  <> fm_worldToVoxel (FrustumMappingIntersection.m_mapping f)
    (line_at ray (t1 iv)) ->
    0 < stepLength iv.
Proof.
  unfold FrustumMappingIntersection.intersect.
  destruct (FrustumMappingIntersection.plane_bounds f ray) as [a b].
  destruct (fltb a b); [ | intros []].
  generalize (std_max a f0); intros m.
  intros [<- | []]; cbn [t0 t1 stepLength]. intros Hlt Hne.
  apply Rdiv_lt_0_compat.
  - change (0 < b - m). lra.
  - apply length_vsub_pos. exact Hne.
Qed.
End StepLengthPositive.

(** C4, amended: in exact arithmetic, for either handler, every ray and
    every mapping, an interval of the returned list with [t0 < t1] whose end
    points [ray(t0)] and [ray(t1)] are distinct points of voxel space has a
    strictly positive [stepLength]. *)
Theorem stepLength_positive
    {E : Externals R} (h : VoxelVolume.IntersectionHandler R)
    (ray : Ray R) (time : PTime R) (iv : Interval R) :
  In iv (VoxelVolume.handler_intersect h ray time) ->
  (t0 iv < t1 iv)%R ->
  Spec.handler_toVoxel h (line_at ray (t0 iv))
  <> Spec.handler_toVoxel h (line_at ray (t1 iv)) ->
  (0 < stepLength iv)%R.
Proof.
  destruct h as [u | f]; cbn [VoxelVolume.handler_intersect Spec.handler_toVoxel].
  - apply uniform_stepLength_positive.
  - apply frustum_stepLength_positive.
Qed.

(** ** The amended C4 at a concrete ray *)

Section OrthoExample.
Local Open Scope R_scope.

Lemma dbl_max_large : 2 < dbl_max.
Proof. unfold dbl_max. apply IZR_lt. reflexivity. Qed.

Lemma V3_eq (x y z x' y' z' : R) :
  x = x' -> y = y' -> z = z' -> V3 x y z = V3 x' y' z'.
Proof. now intros -> -> ->. Qed.

(** The plane through three points whose cross product is a unit
    vector. *)
Lemma plane_of_points_eq (p1 p2 p3 n : Vec3 R) (d : R) :
  cross (vsub p2 p1) (vsub p3 p1) = n -> dot n n = 1 -> dot n p1 = d ->
    plane_of_points p1 p2 p3 = mkPlane n d.
Proof.
  intros Hc Hn <-. unfold plane_of_points, normalize, length.
  rewrite Hc, Hn. change (fsqrt 1) with (R_sqrt.sqrt 1). rewrite sqrt_1.
  change (feqb 1 f0) with (Reqb 1 0). rewrite Reqb_false by lra.
  assert (Hd : vdivs n 1 = n).
  { destruct n as [x y z]; unfold vdivs; cbn. apply V3_eq; field. }
  rewrite Hd. reflexivity.
Qed.

Variables (ray : Ray R) (acc : R * R) (p : Plane R).

Lemma constrain_far :
  0 < dot (dir ray) (normal p) ->
    Spec.constrain ray acc p
  = (fst acc, Rmin (snd acc) (Spec.ray_plane_parameter ray p)).
Proof.
  intros Hd. unfold Spec.constrain, Spec.classify.
  destruct (Rlt_dec _ _); [reflexivity | contradiction].
Qed.

Lemma constrain_near :
  dot (dir ray) (normal p) < 0 ->
    Spec.constrain ray acc p
  = (Rmax (fst acc) (Spec.ray_plane_parameter ray p), snd acc).
Proof.
  intros Hd. unfold Spec.constrain, Spec.classify.
  destruct (Rlt_dec 0 _); [lra | ].
  destruct (Rlt_dec _ 0); [reflexivity | contradiction].
Qed.

Lemma constrain_parallel :
  dot (dir ray) (normal p) = 0 -> Spec.constrain ray acc p = acc.
Proof.
  intros Hd. unfold Spec.constrain, Spec.classify. rewrite Hd.
  destruct (Rlt_dec 0 0); [lra | ]. destruct (Rlt_dec 0 0); [lra | reflexivity].
Qed.
End OrthoExample.

Ltac r_arith :=
  cbn [fadd fsub fmul fdiv fopp f0 f1 fsqrt fltb feqb Scalar_R
       vx vy vz dot cross vsub vadd vscale vdivs normal distance pos dir
       Instances.two Instances.eight line_at].

Section OrthoHandler.
Local Open Scope R_scope.

Let ortho_handler : FrustumMappingIntersection.t R :=
  FrustumMappingIntersection.make (H0 := Instances.Externals_model)
    Instances.ortho.

(** The constructor finds the six faces of the box, normals outward. *)
Lemma ortho_planes :
  FrustumMappingIntersection.m_planes ortho_handler
  = [ mkPlane (V3 (-1) 0 0) 0; mkPlane (V3 1 0 0) 1;
  mkPlane (V3 0 (-1) 0) 0; mkPlane (V3 0 1 0) 1;
  mkPlane (V3 0 0 1) (-1); mkPlane (V3 0 0 (-1)) 2 ].
Proof.
  unfold ortho_handler, FrustumMappingIntersection.make.
  cbn [FrustumMappingIntersection.m_planes FrustumMappingIntersection.corner
      map Math_cornerPoints Instances.Externals_model
      Instances.cornerPoints nth Bounds_zeroOne bmin bmax
      fm_localToWorld Instances.ortho].
  unfold Instances.ortho_localToWorld. r_arith.
  repeat (apply (f_equal2 cons);
      [ apply plane_of_points_eq;
        [ unfold cross, vsub; r_arith; apply V3_eq; ring
          | r_arith; ring
          | r_arith; ring ] | ]).
  reflexivity.
Qed.

(** The loop leaves [t0 = 1] and [t1 = 2] for [ortho_ray]. *)
Lemma ortho_bounds :
  FrustumMappingIntersection.plane_bounds ortho_handler Instances.ortho_ray
  = (1, 2).
Proof.
  rewrite plane_bounds_constrain, ortho_planes. cbn [fold_left].
  pose proof dbl_max_large as Hbig.
  set (ray := Instances.ortho_ray).
  rewrite (constrain_parallel ray _ (mkPlane (V3 (-1) 0 0) 0))
    by (unfold ray, Instances.ortho_ray; r_arith; ring).
  rewrite (constrain_parallel ray _ (mkPlane (V3 1 0 0) 1))
    by (unfold ray, Instances.ortho_ray; r_arith; ring).
  rewrite (constrain_parallel ray _ (mkPlane (V3 0 (-1) 0) 0))
    by (unfold ray, Instances.ortho_ray; r_arith; ring).
  rewrite (constrain_parallel ray _ (mkPlane (V3 0 1 0) 1))
    by (unfold ray, Instances.ortho_ray; r_arith; ring).
  rewrite (constrain_near ray _ (mkPlane (V3 0 0 1) (-1)))
    by (unfold ray, Instances.ortho_ray; r_arith; lra).
  rewrite (constrain_far ray _ (mkPlane (V3 0 0 (-1)) 2))
    by (unfold ray, Instances.ortho_ray; r_arith; lra).
  unfold Spec.ray_plane_parameter, ray, Instances.ortho_ray.
  cbn [fst snd]. r_arith.
  assert (Hn : (-1 - (0 * 0.5 + 0 * 0.5 + 1 * 0)) / (0 * 0 + 0 * 0 + 1 * -1)
      = 1) by (field; lra).
  assert (Hf : (2 - (0 * 0.5 + 0 * 0.5 + -1 * 0)) / (0 * 0 + 0 * 0 + -1 * -1)
      = 2) by (field; lra).
  rewrite Hn, Hf, Rmax_right, Rmin_right by lra. reflexivity.
Qed.

Lemma ortho_intersect :
  FrustumMappingIntersection.intersect ortho_handler Instances.ortho_ray 0
  = [mkInterval 1 2
    (Spec.step_length Instances.ortho_worldToVoxel Instances.ortho_ray
      1 2)].
Proof.
  unfold FrustumMappingIntersection.intersect. rewrite ortho_bounds.
  change (fltb 1 2) with (Rltb 1 2). rewrite Rltb_true by lra.
  rewrite std_max_Rmax, Rmax_left by (cbn; lra). reflexivity.
Qed.
End OrthoHandler.

(** The amended C4 applied to the ray [ortho_ray] and the frustum handler
    of [ortho]: the interval is [(1, 2, stepLength)]. *)
Lemma stepLength_positive_witness :
  (0 < Spec.step_length Instances.ortho_worldToVoxel Instances.ortho_ray 1 2)%R.
Proof.
  apply (@stepLength_positive Instances.Externals_model
           (VoxelVolume.FrustumHandler
              (FrustumMappingIntersection.make
                 (H0 := Instances.Externals_model) Instances.ortho))
           Instances.ortho_ray 0%R
           (mkInterval 1%R 2%R
              (Spec.step_length Instances.ortho_worldToVoxel
                                Instances.ortho_ray 1%R 2%R))).
  - cbn [VoxelVolume.handler_intersect]. rewrite ortho_intersect.
    left. reflexivity.
  - cbn [t0 t1]. lra.
  - cbn [t0 t1 Spec.handler_toVoxel FrustumMappingIntersection.make
         FrustumMappingIntersection.m_mapping fm_worldToVoxel Instances.ortho].
    unfold Instances.ortho_worldToVoxel, Instances.ortho_ray. r_arith.
    intros Heq. injection Heq as _ _ Hz. lra.
Defined.

(* ------------------------------------------------------------------ *)
(** * The orchestrator *)
(* ------------------------------------------------------------------ *)

Section SampleFacts.
Context {F : Type} `{Scalar F}.

(** [isInBounds] is the inclusive test on every axis. *)
Lemma isInBounds_outside (vsP : Vector F) (dw : Box3i) :
  isInBounds vsP dw = negb (Spec.outside vsP dw).
Proof.
  unfold isInBounds, Spec.outside, Spec.outside_axis.
  cbn [isInBounds_from vnth inth]. unfold fgtb.
  destruct (fltb (vx vsP) _), (fltb _ (vx vsP)),
    (fltb (vy vsP) _), (fltb _ (vy vsP)),
    (fltb (vz vsP) _), (fltb _ (vz vsP)); reflexivity.
Qed.

(** An unresolved attribute whose name is not the buffer's resolves to
    "invalid". *)
Lemma resolve_absent_name (attribute : VolumeAttr) (name : string) :
  attr_index attribute = IndexNotSet ->
    attr_name attribute <> name ->
    Spec.is_invalid (Spec.resolve attribute name) = true.
Proof.
  intros Hidx Hne. unfold Spec.resolve. rewrite Hidx.
  destruct (String.eqb_spec (attr_name attribute) name); [contradiction | ].
  reflexivity.
Qed.
End SampleFacts.

(** C5: for every sample query on a volume with a buffer and a mapping,
    [VoxelVolume::sample] returns the zero color when the attribute resolves
    to "invalid", the zero color when the position, mapped to voxel space,
    is outside the data window under the inclusive test on each axis, and
    otherwise the value of the linear sampler at that voxel-space point. *)
Theorem sample_cases
    {F : Type} `{Scalar F} `{!LinearFieldInterp F}
    (v : VoxelVolume.t F) (state : VoxelVolume.VolumeSampleState F)
    (attribute : VolumeAttr) (buffer : VoxelVolume.VoxelBuffer F)
    (m : FieldMapping F) :
  VoxelVolume.m_buffer v = Some buffer ->
  mapping buffer = Some m ->
  let attribute' := Spec.resolve attribute (Field3D.attribute buffer) in
  let vsP := worldToVoxel m (VoxelVolume.wsP state) in
  VoxelVolume.sample v state attribute
  = Some (if Spec.is_invalid attribute' then Colors_zero
          else if Spec.outside vsP (dataWindow buffer) then Colors_zero
          else LinearFieldInterp_sample buffer vsP,
          attribute').
Proof.
  intros Hb Hm attribute' vsP.
  unfold VoxelVolume.sample. rewrite Hb.
  assert (Hres :
    match attr_index attribute with
    | IndexNotSet =>
        Some (setupVolumeAttr attribute (Field3D.attribute buffer) 0)
    | _ => Some attribute
    end = Some attribute').
  { unfold attribute', Spec.resolve, setupVolumeAttr.
    destruct (attr_index attribute); reflexivity. }
  rewrite Hres. unfold Spec.is_invalid.
  destruct (attr_index attribute') eqn:Hidx; try reflexivity;
    rewrite Hm, isInBounds_outside, negb_involutive;
    fold vsP; destruct (Spec.outside vsP _); reflexivity.
Qed.

(** C5 at a point in the middle of a dense field of the unit mapping. *)
Lemma sample_cases_witness :
  VoxelVolume.sample
    (VoxelVolume.mk
       (Some (Instances.dense_field "density"
                (Some (MatrixMapping Instances.unit_mapping))))
       None)
    (VoxelVolume.mkVolumeSampleState (V3 0.5 0.5 0.5)%R 0%R)
    (mkVolumeAttr "density" IndexNotSet)
  = Some (let buffer :=
            Instances.dense_field "density"
              (Some (MatrixMapping Instances.unit_mapping)) in
          let attribute' :=
            Spec.resolve (mkVolumeAttr "density" IndexNotSet) "density" in
          let vsP :=
            worldToVoxel (MatrixMapping Instances.unit_mapping)
                         (V3 0.5 0.5 0.5)%R in
          (if Spec.is_invalid attribute' then Colors_zero
           else if Spec.outside vsP (dataWindow buffer) then Colors_zero
           else LinearFieldInterp_sample buffer vsP,
           attribute')).
Proof.
  apply (@sample_cases R Scalar_R Instances.LinearFieldInterp_R
           (VoxelVolume.mk
              (Some (Instances.dense_field "density"
                       (Some (MatrixMapping Instances.unit_mapping))))
              None)
           (VoxelVolume.mkVolumeSampleState (V3 0.5 0.5 0.5)%R 0%R)
           (mkVolumeAttr "density" IndexNotSet)
           (Instances.dense_field "density"
              (Some (MatrixMapping Instances.unit_mapping)))
           (MatrixMapping Instances.unit_mapping)).
  - reflexivity.
  - reflexivity.
Defined.

Section HandlerUpdate.
Context {F : Type} `{Externals F}.

Lemma update_missing_buffer (w : VoxelVolume.World F) :
  VoxelVolume.m_buffer (VoxelVolume.self w) = None ->
    VoxelVolume.updateIntersectionHandler w
  = (Thrown MissingBufferException, w).
Proof.
  intros Hb. unfold VoxelVolume.updateIntersectionHandler, bind, get, throw.
  rewrite Hb. reflexivity.
Qed.

Lemma update_missing_mapping (w : VoxelVolume.World F)
    (b : VoxelVolume.VoxelBuffer F) :
  VoxelVolume.m_buffer (VoxelVolume.self w) = Some b ->
    mapping b = None ->
    VoxelVolume.updateIntersectionHandler w
  = (Thrown MissingMappingException, w).
Proof.
  intros Hb Hm. unfold VoxelVolume.updateIntersectionHandler, bind, get, throw.
  rewrite Hb, Hm. reflexivity.
Qed.

Lemma update_unsupported (w : VoxelVolume.World F)
    (b : VoxelVolume.VoxelBuffer F) (wv : Vec3 F -> Vec3 F) :
  VoxelVolume.m_buffer (VoxelVolume.self w) = Some b ->
    mapping b = Some (OtherMapping wv) ->
    VoxelVolume.updateIntersectionHandler w
  = (Thrown UnsupportedMappingException, w).
Proof.
  intros Hb Hm. unfold VoxelVolume.updateIntersectionHandler, bind, get, throw.
  rewrite Hb, Hm. reflexivity.
Qed.

Lemma update_uniform (w : VoxelVolume.World F)
    (b : VoxelVolume.VoxelBuffer F) (mm : MatrixFieldMapping F) :
  VoxelVolume.m_buffer (VoxelVolume.self w) = Some b ->
    mapping b = Some (MatrixMapping mm) ->
    VoxelVolume.updateIntersectionHandler w
  = (Returned tt,
  VoxelVolume.mkWorld
    (VoxelVolume.mk (Some b)
      (Some (VoxelVolume.UniformHandler
          (UniformMappingIntersection.make mm))))
    (VoxelVolume.log w)).
Proof.
  destruct w as [[buffer handler] entries]; cbn. intros -> Hm.
  unfold VoxelVolume.updateIntersectionHandler, bind, get,
    VoxelVolume.set_m_intersectionHandler; cbn.
  rewrite Hm. reflexivity.
Qed.

Lemma update_frustum (w : VoxelVolume.World F)
    (b : VoxelVolume.VoxelBuffer F) (fm : FrustumMapping F) :
  VoxelVolume.m_buffer (VoxelVolume.self w) = Some b ->
    mapping b = Some (FrustumMap fm) ->
    VoxelVolume.updateIntersectionHandler w
  = (Returned tt,
  VoxelVolume.mkWorld
    (VoxelVolume.mk (Some b)
      (Some (VoxelVolume.FrustumHandler
          (FrustumMappingIntersection.make fm))))
    (VoxelVolume.log w)).
Proof.
  destruct w as [[buffer handler] entries]; cbn. intros -> Hm.
  unfold VoxelVolume.updateIntersectionHandler, bind, get,
    VoxelVolume.set_m_intersectionHandler; cbn.
  rewrite Hm. reflexivity.
Qed.

(** Whatever happens, the handler update leaves the buffer alone. *)
Lemma update_keeps_buffer (w : VoxelVolume.World F) :
  VoxelVolume.m_buffer
    (VoxelVolume.self (snd (VoxelVolume.updateIntersectionHandler w)))
  = VoxelVolume.m_buffer (VoxelVolume.self w).
Proof.
  destruct (VoxelVolume.m_buffer (VoxelVolume.self w)) as [b | ] eqn:Hb.
  - destruct (mapping b) as [[mm | fm | wv] | ] eqn:Hm.
    + rewrite (update_uniform w Hb Hm). reflexivity.
    + rewrite (update_frustum w Hb Hm). reflexivity.
    + rewrite (update_unsupported w Hb Hm). exact Hb.
    + rewrite (update_missing_mapping w Hb Hm). exact Hb.
  - rewrite (update_missing_buffer w Hb). exact Hb.
Qed.
End HandlerUpdate.

(** C6: [VoxelVolume::updateIntersectionHandler] throws exactly when the
    buffer is absent, the buffer's mapping is absent, or the mapping is
    neither the Uniform nor the Frustum variant (and then leaves the volume
    as it was); for a Uniform mapping it installs a
    [UniformMappingIntersection] and for a Frustum mapping a
    [FrustumMappingIntersection], built from that mapping. *)
Theorem updateIntersectionHandler_cases
    {F : Type} `{Externals F} (w : VoxelVolume.World F) :
  (Spec.throws (VoxelVolume.updateIntersectionHandler w)
   <-> (VoxelVolume.m_buffer (VoxelVolume.self w) = None
        \/ (exists b, VoxelVolume.m_buffer (VoxelVolume.self w) = Some b
                      /\ mapping b = None)
        \/ (exists b m, VoxelVolume.m_buffer (VoxelVolume.self w) = Some b
                        /\ mapping b = Some m /\ Spec.unsupported m)))
  /\ (Spec.throws (VoxelVolume.updateIntersectionHandler w) ->
      snd (VoxelVolume.updateIntersectionHandler w) = w)
  /\ (forall b mm,
        VoxelVolume.m_buffer (VoxelVolume.self w) = Some b ->
        mapping b = Some (MatrixMapping mm) ->
        VoxelVolume.updateIntersectionHandler w
        = (Returned tt,
           VoxelVolume.mkWorld
             (VoxelVolume.mk (Some b)
                (Some (VoxelVolume.UniformHandler
                         (UniformMappingIntersection.make mm))))
             (VoxelVolume.log w)))
  /\ (forall b fm,
        VoxelVolume.m_buffer (VoxelVolume.self w) = Some b ->
        mapping b = Some (FrustumMap fm) ->
        VoxelVolume.updateIntersectionHandler w
        = (Returned tt,
           VoxelVolume.mkWorld
             (VoxelVolume.mk (Some b)
                (Some (VoxelVolume.FrustumHandler
                         (FrustumMappingIntersection.make fm))))
             (VoxelVolume.log w))).
Proof.
  assert (Hcases :
    (Spec.throws (VoxelVolume.updateIntersectionHandler w)
     /\ snd (VoxelVolume.updateIntersectionHandler w) = w
     /\ (VoxelVolume.m_buffer (VoxelVolume.self w) = None
         \/ (exists b, VoxelVolume.m_buffer (VoxelVolume.self w) = Some b
                       /\ mapping b = None)
         \/ (exists b m, VoxelVolume.m_buffer (VoxelVolume.self w) = Some b
                         /\ mapping b = Some m /\ Spec.unsupported m)))
    \/ (fst (VoxelVolume.updateIntersectionHandler w) = Returned tt
        /\ exists b m, VoxelVolume.m_buffer (VoxelVolume.self w) = Some b
                       /\ mapping b = Some m /\ ~ Spec.unsupported m)).
  { destruct (VoxelVolume.m_buffer (VoxelVolume.self w)) as [b | ] eqn:Hb.
    - destruct (mapping b) as [[mm | fm | wv] | ] eqn:Hm.
      + right. rewrite (update_uniform w Hb Hm). split; [reflexivity | ].
        exists b, (MatrixMapping mm). repeat split; try assumption.
        intros [Hmm _]. now apply (Hmm mm).
      + right. rewrite (update_frustum w Hb Hm). split; [reflexivity | ].
        exists b, (FrustumMap fm). repeat split; try assumption.
        intros [_ Hfm]. now apply (Hfm fm).
      + left. rewrite (update_unsupported w Hb Hm).
        split; [eexists; reflexivity | split; [reflexivity | ]].
        right; right. exists b, (OtherMapping wv).
        repeat split; try assumption; intros ? Habs; discriminate Habs.
      + left. rewrite (update_missing_mapping w Hb Hm).
        split; [eexists; reflexivity | split; [reflexivity | ]].
        right; left. exists b. split; [reflexivity | assumption].
    - left. rewrite (update_missing_buffer w Hb).
      split; [eexists; reflexivity | split; [reflexivity | ]].
      left. reflexivity. }
  repeat split.
  - intros [e He]. destruct Hcases as [(_ & _ & Hc) | (Hr & _)].
    + exact Hc.
    + rewrite Hr in He. discriminate He.
  - intros Hc. destruct Hcases as [(Ht & _ & _) | (_ & b & m & Hb & Hm & Hs)].
    + exact Ht.
    + exfalso. destruct Hc as [Hn | [(b' & Hb' & Hm') | (b' & m' & Hb' & Hm' & Hu)]].
      * congruence.
      * congruence.
      * apply Hs. congruence.
  - intros [e He]. destruct Hcases as [(_ & Hs & _) | (Hr & _)].
    + exact Hs.
    + rewrite Hr in He. discriminate He.
  - intros b mm Hb Hm. apply update_uniform; assumption.
  - intros b fm Hb Hm. apply update_frustum; assumption.
Qed.

Section Load.
Context {F : Type} `{Externals F}.
Variable disk : string -> option (list (VoxelVolume.VoxelBuffer F)).

(** The file cannot be opened: a warning, no exception, the volume as it
    was. *)
Lemma load_cannot_open (filename : string) (w : VoxelVolume.World F) :
  disk filename = None ->
    VoxelVolume.load disk filename w
  = (Returned tt,
  VoxelVolume.mkWorld (VoxelVolume.self w)
    ((VoxelVolume.log w
      ++ [LogPrint ("Loading voxel buffer: " ++ filename)])
    ++ [LogWarning ("Couldn't load " ++ filename)])).
Proof.
  intros Hd. unfold VoxelVolume.load, bind, VoxelVolume.Log_print; cbn.
  rewrite Hd. reflexivity.
Qed.

(** The file has no vector layers: a warning, no exception, the volume
    as it was. *)
Lemma load_no_layers (filename : string) (w : VoxelVolume.World F) :
  disk filename = Some [] ->
    VoxelVolume.load disk filename w
  = (Returned tt,
  VoxelVolume.mkWorld (VoxelVolume.self w)
    ((VoxelVolume.log w
      ++ [LogPrint ("Loading voxel buffer: " ++ filename)])
    ++ [LogWarning
        ("No <float> fields could be loaded from " ++ filename)])).
Proof.
  intros Hd. unfold VoxelVolume.load, bind, VoxelVolume.Log_print; cbn.
  rewrite Hd. reflexivity.
Qed.

(** The first layer is not dense: a warning, and then the handler update
    runs on the volume as it was. *)
Lemma load_not_dense (filename : string) (w : VoxelVolume.World F)
    (buffer0 : VoxelVolume.VoxelBuffer F)
    (rest : list (VoxelVolume.VoxelBuffer F)) :
  disk filename = Some (buffer0 :: rest) ->
    storage buffer0 = Sparse ->
    VoxelVolume.load disk filename w
  = VoxelVolume.updateIntersectionHandler
    (VoxelVolume.mkWorld (VoxelVolume.self w)
    ((VoxelVolume.log w
      ++ [LogPrint ("Loading voxel buffer: " ++ filename)])
    ++ [LogWarning ("No DenseField in: " ++ filename)])).
Proof.
  intros Hd Hs. unfold VoxelVolume.load, bind, VoxelVolume.Log_print; cbn.
  rewrite Hd, Hs. reflexivity.
Qed.

(** With no buffer in the volume, that update throws. *)
Lemma load_not_dense_throws (filename : string) (w : VoxelVolume.World F)
    (buffer0 : VoxelVolume.VoxelBuffer F)
    (rest : list (VoxelVolume.VoxelBuffer F)) :
  disk filename = Some (buffer0 :: rest) ->
    storage buffer0 = Sparse ->
    VoxelVolume.m_buffer (VoxelVolume.self w) = None ->
    fst (VoxelVolume.load disk filename w) = Thrown MissingBufferException.
Proof.
  intros Hd Hs Hb. rewrite (load_not_dense w Hd Hs).
  rewrite update_missing_buffer by exact Hb. reflexivity.
Qed.

(** A load that finds no usable field leaves the buffer as it was. *)
Lemma load_keeps_buffer (filename : string) (w : VoxelVolume.World F) :
  Spec.no_usable_field (disk filename) = true ->
    VoxelVolume.m_buffer
    (VoxelVolume.self (snd (VoxelVolume.load disk filename w)))
  = VoxelVolume.m_buffer (VoxelVolume.self w).
Proof.
  unfold Spec.no_usable_field.
  destruct (disk filename) as [[ | buffer0 rest] | ] eqn:Hd.
  - intros _. rewrite (load_no_layers w Hd). reflexivity.
  - destruct (storage buffer0) eqn:Hs; [discriminate | intros _].
    rewrite (load_not_dense w Hd Hs), update_keeps_buffer.
    reflexivity.
  - intros _. rewrite (load_cannot_open w Hd). reflexivity.
Qed.

(** If it had no buffer, it has no handler either afterwards. *)
Lemma load_keeps_handler_unset (filename : string)
    (w : VoxelVolume.World F) :
  Spec.no_usable_field (disk filename) = true ->
    VoxelVolume.m_buffer (VoxelVolume.self w) = None ->
    VoxelVolume.m_intersectionHandler
    (VoxelVolume.self (snd (VoxelVolume.load disk filename w)))
  = VoxelVolume.m_intersectionHandler (VoxelVolume.self w).
Proof.
  unfold Spec.no_usable_field.
  destruct (disk filename) as [[ | buffer0 rest] | ] eqn:Hd.
  - intros _ _. rewrite (load_no_layers w Hd). reflexivity.
  - destruct (storage buffer0) eqn:Hs; [discriminate | intros _ Hb].
    rewrite (load_not_dense w Hd Hs).
    rewrite update_missing_buffer by exact Hb. reflexivity.
  - intros _ _. rewrite (load_cannot_open w Hd). reflexivity.
Qed.
End Load.

(** C7: evaluation at the failing input.  On a volume that has no buffer
    yet, loading a file whose first vector layer is a sparse field logs the
    warning "No DenseField in: ..." and then, instead of returning, goes on
    to [updateIntersectionHandler], which throws
    [MissingBufferException]. *)
Theorem load_sparse_file_throws :
  VoxelVolume.load (F := float) Instances.disk "sparse.f3d" Instances.fresh
  = (Thrown MissingBufferException,
     VoxelVolume.mkWorld (VoxelVolume.mk None None)
       [LogPrint "Loading voxel buffer: sparse.f3d";
        LogWarning "No DenseField in: sparse.f3d"]).
Proof. reflexivity. Qed.

(** C9: after [setBuffer(b)], [attributeNames()] is the one-element list of
    [b]'s attribute name; and after [load(path)] on a file without a usable
    field, on a volume in which no buffer was set, the buffer is still
    unset: there are no attribute names and [intersect] cannot be called. *)
Theorem attributeNames_round_trip
    {F : Type} `{Externals F}
    (disk : string -> option (list (VoxelVolume.VoxelBuffer F))) :
  (forall (b : VoxelVolume.VoxelBuffer F) (w : VoxelVolume.World F),
      VoxelVolume.attributeNames
        (VoxelVolume.self (snd (VoxelVolume.setBuffer (Some b) w)))
      = Some [attribute b])
  /\ (forall (filename : string) (w : VoxelVolume.World F),
        VoxelVolume.m_buffer (VoxelVolume.self w) = None ->
        VoxelVolume.m_intersectionHandler (VoxelVolume.self w) = None ->
        Spec.no_usable_field (disk filename) = true ->
        let v' := VoxelVolume.self (snd (VoxelVolume.load disk filename w)) in
        VoxelVolume.m_buffer v' = None
        /\ VoxelVolume.attributeNames v' = None
        /\ forall state, VoxelVolume.intersect v' state = None).
Proof.
  split.
  - intros b w. unfold VoxelVolume.setBuffer, bind, VoxelVolume.set_m_buffer.
    set (w1 := VoxelVolume.mkWorld _ _).
    unfold VoxelVolume.attributeNames.
    rewrite (update_keeps_buffer w1). reflexivity.
  - intros filename w Hb Hh Hf v'.
    assert (Hb' : VoxelVolume.m_buffer v' = None).
    { unfold v'. rewrite (load_keeps_buffer disk filename w Hf). exact Hb. }
    assert (Hh' : VoxelVolume.m_intersectionHandler v' = None).
    { unfold v'. rewrite (load_keeps_handler_unset disk filename w Hf Hb).
      exact Hh. }
    split; [exact Hb' | split].
    + unfold VoxelVolume.attributeNames. rewrite Hb'. reflexivity.
    + intros state. unfold VoxelVolume.intersect. rewrite Hh'. reflexivity.
Qed.

(** C9 at a fresh volume, for a dense buffer and for the file
    ["sparse.f3d"]. *)
Lemma attributeNames_round_trip_witness :
  VoxelVolume.attributeNames
    (VoxelVolume.self
       (snd (VoxelVolume.setBuffer
               (Some (Instances.dense_field (F := float) "density"
                        (Some (FrustumMap Instances.camera))))
               Instances.fresh)))
  = Some ["density"%string]
  /\ (let v' :=
        VoxelVolume.self
          (snd (VoxelVolume.load (F := float) Instances.disk "sparse.f3d"
                                 Instances.fresh)) in
      VoxelVolume.m_buffer v' = None
      /\ VoxelVolume.attributeNames v' = None
      /\ forall state, VoxelVolume.intersect v' state = None).
Proof.
  split.
  - apply (proj1 (attributeNames_round_trip (F := float) Instances.disk)).
  - apply (proj2 (attributeNames_round_trip (F := float) Instances.disk)
             "sparse.f3d"%string Instances.fresh).
    + reflexivity.
    + reflexivity.
    + reflexivity.
Defined.

(* ------------------------------------------------------------------ *)
(** * The Gaussian sampler *)
(* ------------------------------------------------------------------ *)

Section Loops.
Context {St : Type}.

Lemma for_loop_ext (body body' : Z -> St -> St) (n : nat) :
  (forall i s, body i s = body' i s) ->
    forall lo s, for_loop lo n body s = for_loop lo n body' s.
Proof.
  intros Hext. induction n as [ | n IH]; intros lo s; cbn [for_loop].
  - reflexivity.
  - rewrite Hext. apply IH.
Qed.
End Loops.

Section Sums.
Context {Data_T : Type} `{DataT Data_T}.
Local Open Scope R_scope.

(** A loop whose body adds [g i] to the second component of the state adds
    the sum of [g] over the range. *)
Lemma for_loop_snd (g : Z -> R) (body : Z -> Data_T * R -> Data_T * R)
    (n : nat) :
  (forall i s, snd (body i s) = snd s + g i) ->
    forall lo s,
  snd (for_loop lo n body s)
  = snd s + Spec.sum_R (map g (Spec.interval lo n)).
Proof.
  intros Hbody. induction n as [ | n IH]; intros lo s;
    cbn [for_loop Spec.interval map Spec.sum_R fold_right].
  - ring.
  - rewrite IH, Hbody. fold (Spec.sum_R (map g (Spec.interval (lo + 1) n))).
    ring.
Qed.

Lemma sum_R_app (l1 l2 : list R) :
  Spec.sum_R (l1 ++ l2) = Spec.sum_R l1 + Spec.sum_R l2.
Proof.
  unfold Spec.sum_R. induction l1 as [ | x l1 IH]; cbn [app fold_right].
  - ring.
  - rewrite IH. ring.
Qed.

Lemma sum_R_flat_map {A B : Type} (h : B -> R) (g : A -> list B)
    (l : list A) :
  Spec.sum_R (map h (flat_map g l))
  = Spec.sum_R (map (fun a => Spec.sum_R (map h (g a))) l).
Proof.
  induction l as [ | a l IH]; cbn [flat_map map].
  - reflexivity.
  - rewrite map_app, sum_R_app, IH. reflexivity.
Qed.

Lemma sum_R_ext {A : Type} (f g : A -> R) (l : list A) :
  (forall a, f a = g a) -> Spec.sum_R (map f l) = Spec.sum_R (map g l).
Proof.
  intros Hext. induction l as [ | a l IH]; cbn [map Spec.sum_R fold_right].
  - reflexivity.
  - rewrite Hext. f_equal. exact IH.
Qed.

(** A sum of non-negative numbers, one of them positive, is positive. *)
Lemma sum_R_pos (l : list R) (y : R) :
  (forall x, In x l -> 0 <= x) -> In y l -> 0 < y -> 0 < Spec.sum_R l.
Proof.
  unfold Spec.sum_R. induction l as [ | x l IH]; intros Hnn Hin Hy.
  - destruct Hin.
  - cbn [fold_right].
    assert (Hrest : 0 <= fold_right Rplus 0 l).
    { clear IH Hin. induction l as [ | z l IHl]; cbn [fold_right].
      - lra.
      - assert (0 <= z) by (apply Hnn; right; left; reflexivity).
        assert (0 <= fold_right Rplus 0 l).
        { apply IHl. intros x' [Hx' | Hx'].
          - apply Hnn. left. exact Hx'.
          - apply Hnn. right. right. exact Hx'. }
        lra. }
    destruct Hin as [-> | Hin].
    + lra.
    + assert (0 <= x) by (apply Hnn; left; reflexivity).
      assert (0 < fold_right Rplus 0 l).
      { apply IH; try assumption. intros x' Hx'. apply Hnn. right. exact Hx'. }
      lra.
Qed.

Context {L : Spec.DataTLaws Data_T}.

(** The same for the first component, under the laws of [Data_T]. *)
Lemma for_loop_fst (f : Z -> Data_T) (body : Z -> Data_T * R -> Data_T * R)
    (n : nat) :
  (forall i s, fst (body i s) = d_add (fst s) (f i)) ->
    forall lo s,
  fst (for_loop lo n body s)
  = d_add (fst s) (Spec.sum_D (map f (Spec.interval lo n))).
Proof.
  intros Hbody. induction n as [ | n IH]; intros lo s;
    cbn [for_loop Spec.interval map Spec.sum_D fold_right].
  - symmetry. apply Spec.d_add_zero_r.
  - rewrite IH, Hbody. fold (Spec.sum_D (map f (Spec.interval (lo + 1) n))).
    symmetry. apply Spec.d_add_assoc.
Qed.

Lemma sum_D_app (l1 l2 : list Data_T) :
  Spec.sum_D (l1 ++ l2) = d_add (Spec.sum_D l1) (Spec.sum_D l2).
Proof.
  unfold Spec.sum_D. induction l1 as [ | x l1 IH]; cbn [app fold_right].
  - symmetry. apply Spec.d_add_zero_l.
  - rewrite IH. apply Spec.d_add_assoc.
Qed.

Lemma sum_D_flat_map {A B : Type} (h : B -> Data_T) (g : A -> list B)
    (l : list A) :
  Spec.sum_D (map h (flat_map g l))
  = Spec.sum_D (map (fun a => Spec.sum_D (map h (g a))) l).
Proof.
  induction l as [ | a l IH]; cbn [flat_map map].
  - reflexivity.
  - rewrite map_app, sum_D_app, IH. reflexivity.
Qed.
End Sums.

Section GaussianFacts.
Context {Data_T : Type} `{DataT Data_T}.
Local Open Scope R_scope.

Lemma discToCont_R (i : Z) : discToCont i = IZR i + 0.5.
Proof. unfold discToCont; cbn. lra. Qed.

(** The kernel built by [Gaussian(2.0, 2.0)]. *)
Lemma eval_kernel (x : R) :
  GaussianFieldInterp.eval (GaussianFieldInterp.Gaussian_make 2 2) x
  = Spec.kernel x.
Proof.
  unfold GaussianFieldInterp.eval, GaussianFieldInterp.Gaussian_make,
    Spec.kernel.
  cbn [GaussianFieldInterp.m_alpha GaussianFieldInterp.m_exp].
  rewrite std_max_Rmax.
  replace (- (2) * x * x) with (- 2 * x²) by (unfold Rsqr; ring).
  replace (- (2) * 2 * 2) with (- 8) by ring.
  reflexivity.
Qed.

Lemma clamp_point_clamped (vsP : Vec3 R) :
  GaussianFieldInterp.clamp_point vsP = Spec.clamped vsP.
Proof.
  unfold GaussianFieldInterp.clamp_point, Spec.clamped.
  now rewrite !std_max_Rmax.
Qed.

Lemma is_int_true (z : Z) :
  (INT_MIN <= z <= INT_MAX)%Z -> is_int z = true.
Proof.
  intros [Hlo Hhi]. unfold is_int.
  apply andb_true_intro. split; apply Z.leb_le; assumption.
Qed.

Lemma is_int_false (z : Z) : (INT_MAX < z)%Z -> is_int z = false.
Proof.
  intros Hhi. unfold is_int. apply andb_false_intro2.
  apply Z.leb_gt. exact Hhi.
Qed.

(** One axis of the corner, below the limit: the conversion, the
    subtraction and the bound of the loop are defined. *)
Lemma axis_within (x : R) :
  x < Spec.int_limit ->
  GaussianFieldInterp.floor_minus_one (Rmax 0.5 x - 0.5)
  = Some (Zfloor (Rmax 0.5 x - 0.5) - 1)%Z
  /\ is_int (Zfloor (Rmax 0.5 x - 0.5) - 1 + 4) = true.
Proof.
  intros Hx. unfold Spec.int_limit in Hx.
  unfold GaussianFieldInterp.floor_minus_one, to_int.
  set (z := Zfloor (Rmax 0.5 x - 0.5)).
  assert (Hlo : (0 <= z)%Z).
  { apply Zfloor_lub. pose proof (Rmax_l 0.5 x). cbn. lra. }
  assert (Hhi : (z < 2147483645)%Z).
  { apply lt_IZR. pose proof (Zfloor_bound (Rmax 0.5 x - 0.5)) as Hb.
    fold z in Hb. unfold Rmax in *. destruct (Rle_dec 0.5 x); lra. }
  rewrite (@is_int_true z), (@is_int_true (z - 1)%Z),
          (@is_int_true (z - 1 + 4)%Z)
    by (unfold INT_MIN, INT_MAX; lia).
  split; reflexivity.
Qed.

(** One axis at or past the limit: the conversion, or else the bound of
    the loop, leaves the range of [int]. *)
Lemma axis_beyond (x : R) (c : Z) :
  Spec.int_limit <= x ->
  GaussianFieldInterp.floor_minus_one (Rmax 0.5 x - 0.5) = Some c ->
  is_int (c + 4) = false.
Proof.
  intros Hx. unfold Spec.int_limit in Hx.
  assert (Hlo : (2147483645 <= Zfloor (Rmax 0.5 x - 0.5))%Z).
  { apply Zfloor_lub. pose proof (Rmax_r 0.5 x). lra. }
  unfold GaussianFieldInterp.floor_minus_one, to_int.
  destruct (is_int (Zfloor (Rmax 0.5 x - 0.5))); [ | discriminate].
  destruct (is_int (Zfloor (Rmax 0.5 x - 0.5) - 1)); [ | discriminate].
  intros Heq. injection Heq as <-. apply is_int_false.
  unfold INT_MAX. lia.
Qed.

Lemma corner_origin (p : Vec3 R) :
  Spec.within_int p ->
  GaussianFieldInterp.corner (Spec.clamped p)
  = Some (Spec.origin (Spec.clamped p))
  /\ GaussianFieldInterp.loop_bounds (Spec.origin (Spec.clamped p)) = true.
Proof.
  intros (Hx & Hy & Hz).
  destruct (axis_within Hx) as [Hcx Hbx].
  destruct (axis_within Hy) as [Hcy Hby].
  destruct (axis_within Hz) as [Hcz Hbz].
  unfold GaussianFieldInterp.corner, GaussianFieldInterp.loop_bounds,
    Spec.origin, Spec.clamped.
  cbn [vx vy vz vsub fsub Scalar_R ix iy iz].
  rewrite Hcx, Hcy, Hcz, Hbx, Hby, Hbz. split; reflexivity.
Qed.

Variable data : Field R Data_T.
Variable clampedVsP : Vec3 R.

Lemma tap_snd (k j i : Z) (s : Data_T * R) :
  snd (GaussianFieldInterp.tap data (GaussianFieldInterp.Gaussian_make 2 2)
    clampedVsP k j i s)
  = snd s + Spec.weight clampedVsP (i, j, k).
Proof.
  destruct s as [value normalization].
  unfold GaussianFieldInterp.tap, GaussianFieldInterp.eval3, Spec.weight.
  cbn [snd]. now rewrite !eval_kernel, !discToCont_R.
Qed.

Lemma tap_fst (k j i : Z) (s : Data_T * R) :
  fst (GaussianFieldInterp.tap data (GaussianFieldInterp.Gaussian_make 2 2)
    clampedVsP k j i s)
  = d_add (fst s)
    (d_scale (Spec.weight clampedVsP (i, j, k))
    (Spec.lookup data (i, j, k))).
Proof.
  destruct s as [value normalization].
  unfold GaussianFieldInterp.tap, GaussianFieldInterp.eval3, Spec.weight,
    Spec.lookup, Spec.clamp.
  cbn [fst]. now rewrite !eval_kernel, !discToCont_R.
Qed.

(** The three loops, from any state, add the sum of the weights of the
    neighbourhood of [c] to the normalization. *)
Lemma loops_snd (c : V3i) (s : Data_T * R) :
  snd (for_loop (iz c) 4 (fun k =>
    for_loop (iy c) 4 (fun j =>
      for_loop (ix c) 4 (fun i =>
        GaussianFieldInterp.tap data
          (GaussianFieldInterp.Gaussian_make 2 2) clampedVsP k j i))) s)
  = snd s + Spec.sum_R (map (Spec.weight clampedVsP) (Spec.neighbourhood c)).
Proof.
  unfold Spec.neighbourhood.
  rewrite sum_R_flat_map.
  rewrite (for_loop_snd
      (fun k => Spec.sum_R (map (Spec.weight clampedVsP)
          (flat_map (fun j => map (fun i => (i, j, k))
              (Spec.interval (ix c) 4))
            (Spec.interval (iy c) 4))))).
  - reflexivity.
  - intros k s'. rewrite sum_R_flat_map.
    rewrite (for_loop_snd
        (fun j => Spec.sum_R (map (Spec.weight clampedVsP)
            (map (fun i => (i, j, k)) (Spec.interval (ix c) 4))))).
    + reflexivity.
    + intros j s''. rewrite map_map.
      apply for_loop_snd. intros i s3. apply tap_snd.
Qed.

Context {L : Spec.DataTLaws Data_T}.

(** And the weighted values to the value. *)
Lemma loops_fst (c : V3i) (s : Data_T * R) :
  fst (for_loop (iz c) 4 (fun k =>
    for_loop (iy c) 4 (fun j =>
      for_loop (ix c) 4 (fun i =>
        GaussianFieldInterp.tap data
          (GaussianFieldInterp.Gaussian_make 2 2) clampedVsP k j i))) s)
  = d_add (fst s)
    (Spec.sum_D
    (map (fun t => d_scale (Spec.weight clampedVsP t)
        (Spec.lookup data t))
      (Spec.neighbourhood c))).
Proof.
  unfold Spec.neighbourhood.
  set (term := fun t => d_scale (Spec.weight clampedVsP t)
      (Spec.lookup data t)).
  rewrite sum_D_flat_map.
  rewrite (for_loop_fst
      (fun k => Spec.sum_D (map term
          (flat_map (fun j => map (fun i => (i, j, k))
              (Spec.interval (ix c) 4))
            (Spec.interval (iy c) 4))))).
  - reflexivity.
  - intros k s'. rewrite sum_D_flat_map.
    rewrite (for_loop_fst
        (fun j => Spec.sum_D (map term
            (map (fun i => (i, j, k)) (Spec.interval (ix c) 4))))).
    + reflexivity.
    + intros j s''. rewrite map_map.
      apply for_loop_fst. intros i s3. apply tap_fst.
Qed.
End GaussianFacts.

Section GaussianDefined.
Context {Data_T : Type} `{DataT Data_T}.
Local Open Scope R_scope.

(** Below the limit the sampler runs its three loops from the origin of
    the neighbourhood ... *)
Lemma accumulate_within (data : Field R Data_T) (p : Vec3 R) :
  Spec.within_int p ->
  GaussianFieldInterp.accumulate data p
  = Some (for_loop (iz (Spec.origin (Spec.clamped p))) 4 (fun k =>
            for_loop (iy (Spec.origin (Spec.clamped p))) 4 (fun j =>
              for_loop (ix (Spec.origin (Spec.clamped p))) 4 (fun i =>
                GaussianFieldInterp.tap data
                  (GaussianFieldInterp.Gaussian_make 2 2)
                  (Spec.clamped p) k j i)))
            (d_zero, 0)).
Proof.
  intros Hin. destruct (corner_origin Hin) as [Hc Hb].
  unfold GaussianFieldInterp.accumulate.
  rewrite clamp_point_clamped, Hc, Hb. reflexivity.
Qed.

(** ... and at or past it, on any axis, it has no result. *)
Lemma accumulate_beyond (data : Field R Data_T) (p : Vec3 R) :
  Spec.int_limit <= vx p \/ Spec.int_limit <= vy p
  \/ Spec.int_limit <= vz p ->
  GaussianFieldInterp.accumulate data p = None.
Proof.
  intros Hout. unfold GaussianFieldInterp.accumulate.
  rewrite clamp_point_clamped.
  unfold GaussianFieldInterp.corner, Spec.clamped.
  cbn [vx vy vz vsub fsub Scalar_R].
  destruct (GaussianFieldInterp.floor_minus_one (Rmax 0.5 (vx p) - 0.5))
    as [cx | ] eqn:Hcx; [ | reflexivity].
  destruct (GaussianFieldInterp.floor_minus_one (Rmax 0.5 (vy p) - 0.5))
    as [cy | ] eqn:Hcy; [ | reflexivity].
  destruct (GaussianFieldInterp.floor_minus_one (Rmax 0.5 (vz p) - 0.5))
    as [cz | ] eqn:Hcz; [ | reflexivity].
  unfold GaussianFieldInterp.loop_bounds. cbn [ix iy iz].
  destruct Hout as [Hx | [Hy | Hz]].
  - rewrite (axis_beyond Hx Hcx), !andb_false_r. reflexivity.
  - rewrite (axis_beyond Hy Hcy), andb_false_r. reflexivity.
  - rewrite (axis_beyond Hz Hcz). reflexivity.
Qed.
End GaussianDefined.

Section GaussianKernel.
Local Open Scope R_scope.

Lemma kernel_nonneg (x : R) : 0 <= Spec.kernel x.
Proof. unfold Spec.kernel. apply Rmax_l. Qed.

(** The kernel is positive strictly inside the truncation width. *)
Lemma kernel_pos (x : R) : -2 < x < 2 -> 0 < Spec.kernel x.
Proof.
  intros Hx. unfold Spec.kernel.
  apply Rlt_le_trans with (exp (- 2 * x²) - exp (- 8)); [ | apply Rmax_r].
  assert (Hexp : exp (- 8) < exp (- 2 * x²)).
  { apply exp_increasing. unfold Rsqr. nra. }
  lra.
Qed.

Lemma weight_nonneg (clampedP : Vec3 R) (t : Z * Z * Z) :
  0 <= Spec.weight clampedP t.
Proof.
  destruct t as [[i j] k]. unfold Spec.weight.
  repeat apply Rmult_le_pos; apply kernel_nonneg.
Qed.

(** The offset of the second tap of an axis from the clamped coordinate is
    in (-1, 0]. *)
Lemma central_offset (x : R) :
  -1 < (IZR (Zfloor (x - 0.5) - 1 + 1) + 0.5) - x <= 0.
Proof.
  replace (Zfloor (x - 0.5) - 1 + 1)%Z with (Zfloor (x - 0.5)) by lia.
  pose proof (Zfloor_bound (x - 0.5)) as Hb. lra.
Qed.

Lemma central_weight_pos (clampedP : Vec3 R) :
  let c := Spec.origin clampedP in
  0 < Spec.weight clampedP (ix c + 1, iy c + 1, iz c + 1)%Z.
Proof.
  cbn zeta. unfold Spec.weight, Spec.origin. cbn [ix iy iz].
  pose proof (central_offset (vx clampedP)).
  pose proof (central_offset (vy clampedP)).
  pose proof (central_offset (vz clampedP)).
  repeat apply Rmult_lt_0_compat; apply kernel_pos; lra.
Qed.

Lemma central_tap_in (c : V3i) :
  In (ix c + 1, iy c + 1, iz c + 1)%Z (Spec.neighbourhood c).
Proof.
  unfold Spec.neighbourhood.
  apply in_flat_map. exists (iz c + 1)%Z. split.
  - cbn [Spec.interval]. right. left. reflexivity.
  - apply in_flat_map. exists (iy c + 1)%Z. split.
    + cbn [Spec.interval]. right. left. reflexivity.
    + apply in_map_iff. exists (ix c + 1)%Z. split; [reflexivity | ].
      cbn [Spec.interval]. right. left. reflexivity.
Qed.

(** The sum of the weights of a neighbourhood is positive. *)
Lemma weights_sum_pos (clampedP : Vec3 R) :
  0 < Spec.sum_R (map (Spec.weight clampedP)
    (Spec.neighbourhood (Spec.origin clampedP))).
Proof.
  apply sum_R_pos
    with (y := Spec.weight clampedP
      (ix (Spec.origin clampedP) + 1,
        iy (Spec.origin clampedP) + 1,
        iz (Spec.origin clampedP) + 1)%Z).
  - intros x Hx. apply in_map_iff in Hx. destruct Hx as (t & <- & _).
    apply weight_nonneg.
  - apply in_map. apply central_tap_in.
  - apply central_weight_pos.
Qed.

(** An index clamped to a non-empty range: kept when inside, replaced by
    the nearest bound when outside. *)
Lemma clamp_cases (lo hi i : Z) :
  (lo <= hi)%Z ->
    (lo <= Spec.clamp lo hi i <= hi)%Z
  /\ ((lo <= i <= hi)%Z -> Spec.clamp lo hi i = i)
  /\ ((i < lo)%Z -> Spec.clamp lo hi i = lo)
  /\ ((hi < i)%Z -> Spec.clamp lo hi i = hi).
Proof. unfold Spec.clamp. lia. Qed.

Lemma DataTLaws_R : Spec.DataTLaws R.
Proof. split; intros; cbn; ring. Qed.

Lemma DataTLaws_V3 : Spec.DataTLaws (Vec3 R).
Proof.
  split; intros; cbn; unfold vadd; cbn.
  - apply V3_eq; ring.
  - destruct a; apply V3_eq; cbn; ring.
  - destruct a; apply V3_eq; cbn; ring.
Qed.
End GaussianKernel.

(** C8, amended: in exact arithmetic, for every continuous voxel point [p]
    below [2^31 - 2.5] on each axis, the Gaussian sampler clamps each axis
    of [p] to at least 0.5, takes [c = floor(clampedP - 0.5) - 1] per axis
    and returns [sum (weight * value) / sum weight] over the 4 x 4 x 4
    neighbourhood [i in [c.x, c.x + 3]] (and so for [j], [k]), where the
    weight is the product over the axes of [max(0, exp(-2 x^2) - exp(-8))]
    at [(i + 0.5) - clampedP.x], and the value is looked up at the index
    clamped to the data window.  (At or past the limit the corner or the
    bound of a loop is no [int], and the call has no defined result.) *)
Theorem gaussian_sample_correct
    {Data_T : Type} `{DataT Data_T} {L : Spec.DataTLaws Data_T}
    (data : Field R Data_T) (p : Vec3 R) :
  Spec.within_int p ->
  GaussianFieldInterp.sample data p = Some (Spec.gaussian_sample data p).
Proof.
  intros Hin.
  unfold GaussianFieldInterp.sample, Spec.gaussian_sample.
  rewrite (accumulate_within data Hin).
  set (cp := Spec.clamped p). set (c := Spec.origin cp).
  pose proof (loops_fst data cp c (d_zero, 0%R)) as Hfst.
  pose proof (loops_snd data cp c (d_zero, 0%R)) as Hsnd.
  destruct (for_loop _ _ _ _) as [value normalization].
  cbn [fst snd] in Hfst, Hsnd.
  rewrite Hfst, Hsnd, Spec.d_add_zero_l, Rplus_0_l. reflexivity.
Qed.

(** The amended C8 for the field that is one at the voxel (5, 5, 5) and
    zero elsewhere, sampled at the centre of that voxel. *)
Lemma gaussian_sample_correct_witness :
  GaussianFieldInterp.sample Instances.unit_voxel_field (V3 5.5 5.5 5.5)%R
  = Some (Spec.gaussian_sample Instances.unit_voxel_field
            (V3 5.5 5.5 5.5)%R).
Proof.
  apply (@gaussian_sample_correct R DataT_R DataTLaws_R
           Instances.unit_voxel_field (V3 5.5 5.5 5.5)%R).
  unfold Spec.within_int, Spec.int_limit; cbn [vx vy vz]. lra.
Defined.

(** C8 as first stated fails past the range of [int]: at the point
    (3000000000, 0.5, 0.5), [floor(clampedVsP.x - 0.5)] is 2999999999,
    which [static_cast<int>] cannot convert, and the sampler has no
    defined result where the claim promises the weighted mean. *)
Lemma gaussian_sample_undefined_past_int :
  GaussianFieldInterp.sample Instances.unit_voxel_field
    (V3 3000000000 0.5 0.5)%R
  = None.
Proof.
  unfold GaussianFieldInterp.sample.
  rewrite accumulate_beyond; [reflexivity | ].
  left. unfold Spec.int_limit; cbn [vx]. lra.
Qed.

(** C10, amended: in exact arithmetic, for every voxel point below
    [2^31 - 2.5] on each axis and every data window, the three loops of the
    Gaussian sampler run and leave a normalization, the sum of the weights
    of the 4 x 4 x 4 neighbourhood, that is strictly positive, so the final
    division does not divide by zero: the second tap of each axis is less
    than one voxel from the clamped point, inside the truncation width
    2. *)
Theorem gaussian_normalization_positive
    {Data_T : Type} `{DataT Data_T} (data : Field R Data_T) (p : Vec3 R) :
  Spec.within_int p ->
  exists (value : Data_T) (normalization : R),
    GaussianFieldInterp.accumulate data p = Some (value, normalization)
    /\ (0 < normalization)%R /\ normalization <> 0%R.
Proof.
  intros Hin. rewrite (accumulate_within data Hin).
  set (cp := Spec.clamped p). set (c := Spec.origin cp).
  pose proof (loops_snd data cp c (d_zero, 0%R)) as Hsnd.
  destruct (for_loop _ _ _ _) as [value normalization].
  cbn [snd] in Hsnd. exists value, normalization.
  assert (Hpos : (0 < normalization)%R).
  { rewrite Hsnd, Rplus_0_l. apply weights_sum_pos. }
  split; [reflexivity | split; [exact Hpos | lra]].
Qed.

(** The amended C10 for the field that is one at the voxel (5, 5, 5) and
    zero elsewhere, at the centre of that voxel. *)
Lemma gaussian_normalization_positive_witness :
  exists (value : R) (normalization : R),
    GaussianFieldInterp.accumulate Instances.unit_voxel_field
      (V3 5.5 5.5 5.5)%R
    = Some (value, normalization)
    /\ (0 < normalization)%R /\ normalization <> 0%R.
Proof.
  apply (@gaussian_normalization_positive R DataT_R
           Instances.unit_voxel_field (V3 5.5 5.5 5.5)%R).
  unfold Spec.within_int, Spec.int_limit; cbn [vx vy vz]. lra.
Defined.

(** C10 as first stated fails past the range of [int]: at the point
    (0.5, 0.5, 3000000000) the corner of the neighbourhood is no [int],
    the loops have no defined run and there is no positive normalization
    to divide by. *)
Lemma gaussian_normalization_undefined_past_int :
  GaussianFieldInterp.accumulate Instances.unit_voxel_field
    (V3 0.5 0.5 3000000000)%R
  = None.
Proof.
  apply accumulate_beyond.
  right. right. unfold Spec.int_limit; cbn [vz]. lra.
Qed.

(* ------------------------------------------------------------------ *)
(** * Further properties: the assign helpers of the python module *)
(* ------------------------------------------------------------------ *)

(** X1: [Vec3_assign] returns normally exactly when the sequence has at
    least three elements, and then the vector is the first three, whatever
    it held before and whatever follows in the sequence; it throws exactly
    when the sequence has fewer, with the message for that count, and then
    the vector keeps the components the call wrote before the throw: none,
    [x], or [x] and [y]. *)
Theorem Vec3_assign_cases {T : Type} (v : Vec3 T) (o : list T) :
  (forall v', PyPvr.Vec3_assign v o = PyPvr.Done v'
     <-> exists a b c rest, o = a :: b :: c :: rest /\ v' = V3 a b c)
  /\ (forall e v', PyPvr.Vec3_assign v o = PyPvr.Raised e v'
        <-> (o = []
             /\ e = PyPvr.mkVec3AssignException "No elements in list"
             /\ v' = v)
            \/ (exists a, o = [a]
                /\ e = PyPvr.mkVec3AssignException "Only one element in list"
                /\ v' = V3 a (vy v) (vz v))
            \/ (exists a b, o = [a; b]
                /\ e = PyPvr.mkVec3AssignException
                         "Only two elements in list"
                /\ v' = V3 a b (vz v))).
Proof.
  split.
  - intros v'. split.
    + destruct o as [ | a [ | b [ | c rest]]]; cbn; intros Heq;
        try discriminate Heq.
      injection Heq as <-. exists a, b, c, rest. split; reflexivity.
    + intros (a & b & c & rest & -> & ->). reflexivity.
  - intros e v'. split.
    + destruct o as [ | a [ | b [ | c rest]]]; cbn; intros Heq;
        try discriminate Heq; injection Heq as <- <-.
      * left. repeat split.
      * right. left. exists a. repeat split.
      * right. right. exists a, b. repeat split.
    + intros [(-> & -> & ->) | [(a & -> & -> & ->) | (a & b & -> & -> & ->)]];
        reflexivity.
Qed.

(** X2: [Vec2_assign] returns normally exactly when the sequence has at
    least two elements, and then the vector is the first two; it throws
    exactly when the sequence is empty (the vector untouched) or has one
    element (which has been written to [x]). *)
Theorem Vec2_assign_cases {T : Type} (v : PyPvr.Vec2 T) (o : list T) :
  (forall v', PyPvr.Vec2_assign v o = PyPvr.Done v'
     <-> exists a b rest, o = a :: b :: rest /\ v' = PyPvr.V2 a b)
  /\ (forall e v', PyPvr.Vec2_assign v o = PyPvr.Raised e v'
        <-> (o = []
             /\ e = PyPvr.mkVec3AssignException "No elements in list"
             /\ v' = v)
            \/ (exists a, o = [a]
                /\ e = PyPvr.mkVec3AssignException "Only one element in list"
                /\ v' = PyPvr.V2 a (PyPvr.y2 v))).
Proof.
  split.
  - intros v'. split.
    + destruct o as [ | a [ | b rest]]; cbn; intros Heq;
        try discriminate Heq.
      injection Heq as <-. exists a, b, rest. split; reflexivity.
    + intros (a & b & rest & -> & ->). reflexivity.
  - intros e v'. split.
    + destruct o as [ | a [ | b rest]]; cbn; intros Heq;
        try discriminate Heq; injection Heq as <- <-.
      * left. repeat split.
      * right. exists a. repeat split.
    + intros [(-> & -> & ->) | (a & -> & -> & ->)]; reflexivity.
Qed.

(** X3: [Quat_assign] returns normally exactly when the sequence has at
    least four elements, and then the quaternion is [r] and [v] from the
    first four.  With fewer it throws, leaving the components already
    written; a sequence of three elements is reported with the message for
    two, "Only two elements in list". *)
Theorem Quat_assign_cases {T : Type} (q : PyPvr.Quat T) (o : list T) :
  (forall q', PyPvr.Quat_assign q o = PyPvr.Done q'
     <-> exists a b c d rest,
           o = a :: b :: c :: d :: rest
           /\ q' = PyPvr.mkQuat a (V3 b c d))
  /\ (forall a b c e q',
        o = [a; b; c] ->
        PyPvr.Quat_assign q o = PyPvr.Raised e q' ->
        e = PyPvr.mkVec3AssignException "Only two elements in list"
        /\ q' = PyPvr.mkQuat a (V3 b c (vz (PyPvr.qv q))))
  /\ (forall e q',
        PyPvr.Quat_assign q o = PyPvr.Raised e q' ->
        (List.length o < 4)%nat
        /\ PyPvr.qr q' = nth 0 o (PyPvr.qr q)
        /\ vx (PyPvr.qv q') = nth 1 o (vx (PyPvr.qv q))
        /\ vy (PyPvr.qv q') = nth 2 o (vy (PyPvr.qv q))
        /\ vz (PyPvr.qv q') = vz (PyPvr.qv q)).
Proof.
  split; [ | split].
  - intros q'. split.
    + destruct o as [ | a [ | b [ | c [ | d rest]]]]; cbn; intros Heq;
        try discriminate Heq.
      injection Heq as <-. exists a, b, c, d, rest. split; reflexivity.
    + intros (a & b & c & d & rest & -> & ->). reflexivity.
  - intros a b c e q' -> Heq. cbn in Heq. injection Heq as <- <-.
    split; reflexivity.
  - intros e q' Heq.
    destruct o as [ | a [ | b [ | c [ | d rest]]]]; cbn in Heq;
      try discriminate Heq; injection Heq as _ <-; cbn;
      repeat split; lia.
Qed.

(* ------------------------------------------------------------------ *)
(** * Further properties: the orchestrator *)
(* ------------------------------------------------------------------ *)

Section Consistency.
Context {F : Type} `{Externals F}.

(** A handler update that returns leaves a consistent volume; one that
    throws leaves the volume as it was. *)
Lemma update_outcome (w : VoxelVolume.World F) :
  (fst (VoxelVolume.updateIntersectionHandler w) = Returned tt
   /\ Props.consistent
        (VoxelVolume.self (snd (VoxelVolume.updateIntersectionHandler w)))
   /\ VoxelVolume.m_buffer (VoxelVolume.self w) <> None)
  \/ (Spec.throws (VoxelVolume.updateIntersectionHandler w)
      /\ snd (VoxelVolume.updateIntersectionHandler w) = w).
Proof.
  destruct (VoxelVolume.m_buffer (VoxelVolume.self w)) as [b | ] eqn:Hb.
  - destruct (mapping b) as [[mm | fm | wv] | ] eqn:Hm.
    + left. rewrite (update_uniform w Hb Hm). cbn.
      split; [reflexivity | split; [ | discriminate]].
      unfold Props.consistent; cbn.
      exists (MatrixMapping mm). eexists. repeat split. exact Hm.
    + left. rewrite (update_frustum w Hb Hm). cbn.
      split; [reflexivity | split; [ | discriminate]].
      unfold Props.consistent; cbn.
      exists (FrustumMap fm). eexists. repeat split. exact Hm.
    + right. rewrite (update_unsupported w Hb Hm).
      split; [eexists; reflexivity | reflexivity].
    + right. rewrite (update_missing_mapping w Hb Hm).
      split; [eexists; reflexivity | reflexivity].
  - right. rewrite (update_missing_buffer w Hb).
    split; [eexists; reflexivity | reflexivity].
Qed.

Lemma throws_not_returned {A St : Type} (r : outcome A * St) (a : A) :
  Spec.throws r -> fst r = Returned a -> False.
Proof. intros [e He] Hr. rewrite Hr in He. discriminate He. Qed.
End Consistency.

(** X4: [setBuffer(buffer)] always stores the pointer it is given, null
    included, and writes nothing to the log.  If it returns, the buffer is
    not null and the volume is consistent: it holds the handler of that
    buffer's mapping.  If it throws, the handler is the one the volume had
    before the call, so the new buffer sits beside the handler of the old
    one. *)
Theorem setBuffer_outcome
    {F : Type} `{Externals F}
    (buffer : option (VoxelVolume.VoxelBuffer F)) (w : VoxelVolume.World F) :
  let r := VoxelVolume.setBuffer buffer w in
  VoxelVolume.m_buffer (VoxelVolume.self (snd r)) = buffer
  /\ VoxelVolume.log (snd r) = VoxelVolume.log w
  /\ (fst r = Returned tt ->
      buffer <> None /\ Props.consistent (VoxelVolume.self (snd r)))
  /\ (Spec.throws r ->
      VoxelVolume.m_intersectionHandler (VoxelVolume.self (snd r))
      = VoxelVolume.m_intersectionHandler (VoxelVolume.self w)).
Proof.
  cbn zeta. unfold VoxelVolume.setBuffer, bind, VoxelVolume.set_m_buffer.
  set (w1 := VoxelVolume.mkWorld _ _).
  assert (Hb1 : VoxelVolume.m_buffer (VoxelVolume.self w1) = buffer)
    by reflexivity.
  destruct (update_outcome w1) as [(Hr & Hc & Hn) | (Ht & Hs)].
  - split; [ | split; [ | split]].
    + rewrite update_keeps_buffer. exact Hb1.
    + destruct (VoxelVolume.m_buffer (VoxelVolume.self w1)) as [b | ] eqn:Hb;
        [ | contradiction].
      destruct (mapping b) as [[mm | fm | wv] | ] eqn:Hm.
      * rewrite (update_uniform w1 Hb Hm). reflexivity.
      * rewrite (update_frustum w1 Hb Hm). reflexivity.
      * rewrite (update_unsupported w1 Hb Hm) in Hr. discriminate Hr.
      * rewrite (update_missing_mapping w1 Hb Hm) in Hr. discriminate Hr.
    + intros _. split; [rewrite <- Hb1; exact Hn | exact Hc].
    + intros Ht. exfalso. exact (throws_not_returned Ht Hr).
  - rewrite Hs. split; [reflexivity | split; [reflexivity | split]].
    + intros Hr. exfalso. exact (throws_not_returned Ht Hr).
    + intros _. reflexivity.
Qed.

(** The first layer is dense: it is stored, and then the handler update
    runs. *)
Lemma load_dense
    {F : Type} `{Externals F}
    (disk : string -> option (list (VoxelVolume.VoxelBuffer F)))
    (filename : string) (w : VoxelVolume.World F)
    (buffer0 : VoxelVolume.VoxelBuffer F)
    (rest : list (VoxelVolume.VoxelBuffer F)) :
  disk filename = Some (buffer0 :: rest) ->
  storage buffer0 = Dense ->
  VoxelVolume.load disk filename w
  = VoxelVolume.updateIntersectionHandler
      (VoxelVolume.mkWorld
         (VoxelVolume.mk (Some buffer0)
            (VoxelVolume.m_intersectionHandler (VoxelVolume.self w)))
         (VoxelVolume.log w
          ++ [LogPrint ("Loading voxel buffer: " ++ filename)])).
Proof.
  intros Hd Hs.
  unfold VoxelVolume.load, bind, VoxelVolume.Log_print; cbn.
  rewrite Hd, Hs. reflexivity.
Qed.

(** X5: a [load] that returns leaves a consistent volume if it found one.
    (A [load] that throws may not: it has stored the new buffer and kept
    the old handler.) *)
Theorem load_keeps_consistent
    {F : Type} `{Externals F}
    (disk : string -> option (list (VoxelVolume.VoxelBuffer F)))
    (filename : string) (w : VoxelVolume.World F) :
  Props.consistent (VoxelVolume.self w) ->
  fst (VoxelVolume.load disk filename w) = Returned tt ->
  Props.consistent (VoxelVolume.self (snd (VoxelVolume.load disk filename w))).
Proof.
  intros Hc.
  destruct (disk filename) as [[ | buffer0 rest] | ] eqn:Hd.
  - rewrite (load_no_layers disk filename w Hd). intros _. exact Hc.
  - destruct (storage buffer0) eqn:Hs.
    + rewrite (load_dense disk filename w Hd Hs).
      match goal with
      | |- context [VoxelVolume.updateIntersectionHandler ?w1] =>
          destruct (update_outcome w1) as [(Hr & Hc1 & _) | (Ht & _)]
      end.
      * intros _. exact Hc1.
      * intros Hret. exfalso. exact (throws_not_returned Ht Hret).
    + rewrite (load_not_dense disk filename w Hd Hs).
      match goal with
      | |- context [VoxelVolume.updateIntersectionHandler ?w1] =>
          destruct (update_outcome w1) as [(Hr & Hc1 & _) | (Ht & _)]
      end.
      * intros _. exact Hc1.
      * intros Hret. exfalso. exact (throws_not_returned Ht Hret).
  - rewrite (load_cannot_open disk filename w Hd). intros _. exact Hc.
Qed.

(** X5 on a new volume and the file ["dense.f3d"]. *)
Lemma load_keeps_consistent_witness :
  Props.consistent
    (VoxelVolume.self
       (snd (VoxelVolume.load (F := float) Instances.disk "dense.f3d"
                              Instances.fresh))).
Proof.
  apply (@load_keeps_consistent float Scalar_float Instances.Externals_model
           Instances.disk "dense.f3d"%string Instances.fresh).
  - reflexivity.
  - vm_compute. reflexivity.
Defined.

(** X6: loading a file whose first vector layer is a dense field is
    [setBuffer] of that layer, after the line "Loading voxel buffer: ..."
    has been logged; the other layers of the file are not looked at. *)
Theorem load_dense_is_setBuffer
    {F : Type} `{Externals F}
    (disk : string -> option (list (VoxelVolume.VoxelBuffer F)))
    (filename : string) (w : VoxelVolume.World F)
    (buffer0 : VoxelVolume.VoxelBuffer F)
    (rest : list (VoxelVolume.VoxelBuffer F)) :
  disk filename = Some (buffer0 :: rest) ->
  storage buffer0 = Dense ->
  VoxelVolume.load disk filename w
  = VoxelVolume.setBuffer (Some buffer0)
      (VoxelVolume.mkWorld (VoxelVolume.self w)
         (VoxelVolume.log w
          ++ [LogPrint ("Loading voxel buffer: " ++ filename)])).
Proof.
  intros Hd Hs. rewrite (load_dense disk filename w Hd Hs). reflexivity.
Qed.

(** X6 on a new volume and the file ["dense.f3d"]. *)
Lemma load_dense_is_setBuffer_witness :
  VoxelVolume.load (F := float) Instances.disk "dense.f3d" Instances.fresh
  = VoxelVolume.setBuffer
      (Some (Instances.dense_field "density"
               (Some (MatrixMapping Instances.unit_mapping))))
      (VoxelVolume.mkWorld (VoxelVolume.mk None None)
         [LogPrint "Loading voxel buffer: dense.f3d"]).
Proof.
  apply (@load_dense_is_setBuffer float Scalar_float
           Instances.Externals_model Instances.disk "dense.f3d"%string
           Instances.fresh
           (Instances.dense_field "density"
              (Some (MatrixMapping Instances.unit_mapping)))
           []).
  - reflexivity.
  - reflexivity.
Defined.

(** X7: in a consistent volume the queries are defined exactly when a
    buffer is set.  Without a buffer, [attributeNames] and [intersect] have
    nothing to answer with (a null pointer, a failed assertion).  With a
    buffer, [attributeNames] is its one attribute name, [intersect] answers
    at most one interval for every ray, and [sample] answers for every
    query and every attribute, resolved or not. *)
Theorem consistent_queries_defined
    {F : Type} `{Externals F} `{!LinearFieldInterp F}
    (v : VoxelVolume.t F) :
  Props.consistent v ->
  (VoxelVolume.m_buffer v = None ->
   VoxelVolume.attributeNames v = None
   /\ forall state, VoxelVolume.intersect v state = None)
  /\ (forall b,
        VoxelVolume.m_buffer v = Some b ->
        VoxelVolume.attributeNames v = Some [attribute b]
        /\ (forall state,
              exists l, VoxelVolume.intersect v state = Some l
                        /\ (List.length l <= 1)%nat)
        /\ (forall state attr,
              exists c attr',
                VoxelVolume.sample v state attr = Some (c, attr'))).
Proof.
  unfold Props.consistent. intros Hc. split.
  - intros Hb. rewrite Hb in Hc.
    unfold VoxelVolume.attributeNames, VoxelVolume.intersect.
    rewrite Hb, Hc. split; [reflexivity | intros state; reflexivity].
  - intros b Hb. rewrite Hb in Hc. destruct Hc as (m & h & Hm & _ & Hh).
    split; [ | split].
    + unfold VoxelVolume.attributeNames. rewrite Hb. reflexivity.
    + intros state. unfold VoxelVolume.intersect. rewrite Hh.
      eexists. split; [reflexivity | ].
      destruct h as [u | f]; cbn [VoxelVolume.handler_intersect].
      * unfold UniformMappingIntersection.intersect.
        destruct (Math_intersect _ _) as [[a c] | ]; cbn; lia.
      * unfold FrustumMappingIntersection.intersect.
        destruct (FrustumMappingIntersection.plane_bounds _ _) as [a c].
        destruct (fltb a c); cbn; lia.
    + intros state attr. unfold VoxelVolume.sample. rewrite Hb.
      destruct (attr_index attr) eqn:Hidx.
      * unfold setupVolumeAttr. destruct (String.eqb _ _); cbn.
        -- rewrite Hm. destruct (negb _); eexists; eexists; reflexivity.
        -- eexists; eexists; reflexivity.
      * rewrite Hidx. eexists; eexists; reflexivity.
      * rewrite Hidx, Hm. destruct (negb _); eexists; eexists; reflexivity.
Qed.

(** X7 on the volume [unit_volume]. *)
Lemma consistent_queries_defined_witness :
  (VoxelVolume.m_buffer Props.unit_volume = None ->
   VoxelVolume.attributeNames Props.unit_volume = None
   /\ forall state, VoxelVolume.intersect Props.unit_volume state = None)
  /\ (forall b,
        VoxelVolume.m_buffer Props.unit_volume = Some b ->
        VoxelVolume.attributeNames Props.unit_volume = Some [attribute b]
        /\ (forall state,
              exists l, VoxelVolume.intersect Props.unit_volume state = Some l
                        /\ (List.length l <= 1)%nat)
        /\ (forall state attr,
              exists c attr',
                VoxelVolume.sample Props.unit_volume state attr
                = Some (c, attr'))).
Proof.
  apply (@consistent_queries_defined R Scalar_R Instances.Externals_model
           Instances.LinearFieldInterp_R Props.unit_volume).
  unfold Props.consistent; cbn.
  exists (MatrixMapping Instances.unit_mapping).
  exists (VoxelVolume.UniformHandler
            (UniformMappingIntersection.make Instances.unit_mapping)).
  repeat split.
Defined.

(** X8: [sample] resolves an attribute once.  The attribute it hands back
    is resolved and has the same name; it is the attribute it was given if
    that one was resolved already (the cached index is used as it is, the
    names are not compared again); and the same query with the attribute
    handed back gives the same color and leaves the attribute alone. *)
Theorem sample_resolves_once
    {F : Type} `{Scalar F} `{!LinearFieldInterp F}
    (v : VoxelVolume.t F) (state : VoxelVolume.VolumeSampleState F)
    (attr attr' : VolumeAttr) (c : Color F) :
  VoxelVolume.sample v state attr = Some (c, attr') ->
  attr_index attr' <> IndexNotSet
  /\ attr_name attr' = attr_name attr
  /\ (attr_index attr <> IndexNotSet -> attr' = attr)
  /\ VoxelVolume.sample v state attr' = Some (c, attr').
Proof.
  destruct attr as [name idx].
  unfold VoxelVolume.sample, setupVolumeAttr. cbn [attr_index attr_name].
  destruct (VoxelVolume.m_buffer v) as [b | ];
    [destruct (mapping b) as [m | ] | ];
    destruct idx as [ | | i]; cbn [attr_index attr_name];
    try destruct (String.eqb name (attribute b)); cbn [attr_index attr_name];
    try destruct (negb _) eqn:Hin;
    intros Heq; try discriminate Heq; injection Heq as <- <-;
    cbn [attr_index attr_name]; rewrite ?Hin;
    (split; [discriminate | split; [reflexivity | split; [ | reflexivity]]]);
    intros Hn; try reflexivity; exfalso; apply Hn; reflexivity.
Qed.

(** X8 for an attribute whose name the buffer does not have. *)
Lemma sample_resolves_once_witness :
  attr_index (mkVolumeAttr "temperature" IndexInvalid) <> IndexNotSet
  /\ attr_name (mkVolumeAttr "temperature" IndexInvalid)
     = attr_name (mkVolumeAttr "temperature" IndexNotSet)
  /\ (attr_index (mkVolumeAttr "temperature" IndexNotSet) <> IndexNotSet ->
      mkVolumeAttr "temperature" IndexInvalid
      = mkVolumeAttr "temperature" IndexNotSet)
  /\ VoxelVolume.sample Props.unit_volume
       (VoxelVolume.mkVolumeSampleState (V3 0.5 0.5 0.5)%R 0%R)
       (mkVolumeAttr "temperature" IndexInvalid)
     = Some (Colors_zero, mkVolumeAttr "temperature" IndexInvalid).
Proof.
  apply (@sample_resolves_once R Scalar_R Instances.LinearFieldInterp_R
           Props.unit_volume
           (VoxelVolume.mkVolumeSampleState (V3 0.5 0.5 0.5)%R 0%R)
           (mkVolumeAttr "temperature" IndexNotSet)
           (mkVolumeAttr "temperature" IndexInvalid)
           Colors_zero).
  reflexivity.
Defined.

(** X9: in exact arithmetic [isInBounds] holds exactly when, on each of the
    three axes, the coordinate is between the minimum and the maximum index
    of the data window, both included; so it fails for every point when
    the data window is empty, and for a point within the last voxel but
    past its index, such as [max + 0.5]. *)
Theorem isInBounds_iff (vsP : Vec3 R) (dw : Box3i) :
  (isInBounds vsP dw = true
   <-> (IZR (ix (imin dw)) <= vx vsP <= IZR (ix (imax dw))
        /\ IZR (iy (imin dw)) <= vy vsP <= IZR (iy (imax dw))
        /\ IZR (iz (imin dw)) <= vz vsP <= IZR (iz (imax dw)))%R)
  /\ (~ Props.nonempty dw -> isInBounds vsP dw = false)
  /\ ((IZR (ix (imax dw)) < vx vsP)%R -> isInBounds vsP dw = false).
Proof.
  assert (Hiff :
    isInBounds vsP dw = true
    <-> (IZR (ix (imin dw)) <= vx vsP <= IZR (ix (imax dw))
         /\ IZR (iy (imin dw)) <= vy vsP <= IZR (iy (imax dw))
         /\ IZR (iz (imin dw)) <= vz vsP <= IZR (iz (imax dw)))%R).
  { unfold isInBounds. cbn [isInBounds_from vnth inth]. unfold fgtb.
    cbn [fltb f_of_Z Scalar_R]. unfold Rltb.
    repeat match goal with
           | |- context [Rlt_dec ?a ?b] => destruct (Rlt_dec a b)
           end; cbn; split; intros Hyp;
      try discriminate; try reflexivity; lra. }
  split; [exact Hiff | split].
  - intros Hne. apply not_true_is_false. intros Hin.
    apply Hne. apply Hiff in Hin. unfold Props.nonempty.
    destruct Hin as (Hx & Hy & Hz).
    repeat split; apply le_IZR; lra.
  - intros Hgt. apply not_true_is_false. intros Hin.
    apply Hiff in Hin. lra.
Qed.

(* ------------------------------------------------------------------ *)
(** * Further properties: the frustum handler *)
(* ------------------------------------------------------------------ *)

Section HalfSpaces.
Local Open Scope R_scope.

Lemma dot_line_at (n : Vec3 R) (ray : Ray R) (t : R) :
  dot n (line_at ray t) = dot n (pos ray) + t * dot n (dir ray).
Proof.
  destruct n, ray as [[px py pz] [dx dy dz]].
  unfold dot, line_at, vadd, vscale; cbn. ring.
Qed.

(** One constraint narrows the range of parameters to those whose point
    is on the inner side of the plane, unless the ray runs parallel to
    it. *)
Lemma constrain_bounds (ray : Ray R) (acc : R * R) (p : Plane R) (t : R) :
  fst (Spec.constrain ray acc p) <= t <= snd (Spec.constrain ray acc p)
  <-> (fst acc <= t <= snd acc)
      /\ (dot (normal p) (dir ray) <> 0 ->
          Props.inside p (line_at ray t)).
Proof.
  unfold Spec.constrain, Spec.classify, Spec.ray_plane_parameter,
    Props.inside.
  rewrite dot_line_at, (dot_comm (dir ray) (normal p)).
  set (d := dot (normal p) (dir ray)).
  set (n := dot (normal p) (pos ray)).
  set (k := distance p).
  destruct acc as [a b]. cbn [fst snd].
  destruct (Rlt_dec 0 d) as [Hpos | Hnpos];
    [ | destruct (Rlt_dec d 0) as [Hneg | Hnneg]]; cbn [fst snd].
  - assert (Htp : (k - n) / d * d = k - n) by (field; lra).
    set (tp := (k - n) / d) in *.
    unfold Rmin. destruct (Rle_dec b tp); split.
    + intros [Ha Hb]. split; [lra | ]. intros _. nra.
    + intros [[Ha Hb] Hin]. lra.
    + intros [Ha Hb]. split; [lra | ]. intros _. nra.
    + intros [[Ha Hb] Hin]. assert (n + t * d <= k) by (apply Hin; lra).
      split; [lra | nra].
  - assert (Htp : (k - n) / d * d = k - n) by (field; lra).
    set (tp := (k - n) / d) in *.
    unfold Rmax. destruct (Rle_dec a tp); split.
    + intros [Ha Hb]. split; [lra | ]. intros _. nra.
    + intros [[Ha Hb] Hin]. assert (n + t * d <= k) by (apply Hin; lra).
      split; [nra | lra].
    + intros [Ha Hb]. split; [lra | ]. intros _. nra.
    + intros [[Ha Hb] Hin]. lra.
  - split.
    + intros Hab. split; [exact Hab | ]. intros Hd. exfalso. lra.
    + intros [Hab _]. exact Hab.
Qed.

Lemma fold_constrain_bounds (ray : Ray R) (planes : list (Plane R)) (t : R) :
  forall acc : R * R,
    fst (fold_left (Spec.constrain ray) planes acc) <= t
      <= snd (fold_left (Spec.constrain ray) planes acc)
    <-> (fst acc <= t <= snd acc)
        /\ (forall p, In p planes ->
              dot (normal p) (dir ray) <> 0 ->
              Props.inside p (line_at ray t)).
Proof.
  induction planes as [ | p planes IH]; intros acc; cbn [fold_left].
  - split; [intros Hab; split; [exact Hab | intros p []] | intros [Hab _]];
      exact Hab.
  - rewrite IH, constrain_bounds. split.
    + intros [[Hab Hp] Hrest]. split; [exact Hab | ].
      intros q [<- | Hq]; [exact Hp | exact (Hrest q Hq)].
    + intros [Hab Hall]. split; [split; [exact Hab | ] | ].
      * apply Hall. left. reflexivity.
      * intros q Hq. apply Hall. right. exact Hq.
Qed.

Lemma dbl_max_pos : 0 < dbl_max.
Proof. pose proof dbl_max_large. lra. Qed.
End HalfSpaces.

(** X10: in exact arithmetic, every point of an interval the frustum
    handler returns is at or after the origin of the ray and on the inner
    side of every bounding plane the ray is not parallel to. *)
Theorem frustum_interval_inside
    (f : FrustumMappingIntersection.t R) (ray : Ray R) (time : PTime R)
    (iv : Interval R) (t : R) :
  In iv (FrustumMappingIntersection.intersect f ray time) ->
  (t0 iv <= t <= t1 iv)%R ->
  (0 <= t)%R
  /\ forall p, In p (FrustumMappingIntersection.m_planes f) ->
       dot (normal p) (dir ray) <> 0%R ->
       Props.inside p (line_at ray t).
Proof.
  unfold FrustumMappingIntersection.intersect.
  rewrite plane_bounds_constrain.
  pose proof (fold_constrain_bounds ray
                (FrustumMappingIntersection.m_planes f) t
                (- dbl_max, dbl_max)%R) as Hfold.
  destruct (fold_left _ _ _) as [a b]. cbn [fst snd] in Hfold.
  destruct (fltb a b); [ | intros []].
  intros [<- | []]; cbn [t0 t1]. rewrite std_max_Rmax.
  change (@f0 R Scalar_R) with 0%R. intros [Hlo Hhi].
  pose proof (Rmax_l a 0). pose proof (Rmax_r a 0).
  split; [lra | ]. apply Hfold. lra.
Qed.

(** X10 on the frustum handler of [ortho] and the ray [ortho_ray], at the
    parameter 1.5 of the interval from 1 to 2. *)
Lemma frustum_interval_inside_witness :
  (0 <= 1.5)%R
  /\ forall p, In p (FrustumMappingIntersection.m_planes Props.ortho_handler) ->
       dot (normal p) (dir Instances.ortho_ray) <> 0%R ->
       Props.inside p (line_at Instances.ortho_ray 1.5%R).
Proof.
  apply (@frustum_interval_inside Props.ortho_handler Instances.ortho_ray
           0%R
           (mkInterval 1%R 2%R
              (Spec.step_length Instances.ortho_worldToVoxel
                                Instances.ortho_ray 1%R 2%R))
           1.5%R).
  - unfold Props.ortho_handler. rewrite ortho_intersect. left. reflexivity.
  - cbn [t0 t1]. lra.
Defined.

(** X11: in exact arithmetic the frustum handler misses nothing in front
    of the ray: if the points of the ray at two parameters [0 <= s < u],
    [u] no larger than the largest double, are on the inner side of every
    bounding plane the ray is not parallel to, the handler returns an
    interval, and the interval contains both parameters. *)
Theorem frustum_interval_complete
    (f : FrustumMappingIntersection.t R) (ray : Ray R) (time : PTime R)
    (s u : R) :
  (0 <= s)%R -> (s < u)%R -> (u <= dbl_max)%R ->
  (forall p, In p (FrustumMappingIntersection.m_planes f) ->
     dot (normal p) (dir ray) <> 0%R ->
     Props.inside p (line_at ray s) /\ Props.inside p (line_at ray u)) ->
  exists iv,
    FrustumMappingIntersection.intersect f ray time = [iv]
    /\ (0 <= t0 iv <= s)%R /\ (u <= t1 iv)%R.
Proof.
  intros Hs Hsu Hu Hin.
  unfold FrustumMappingIntersection.intersect.
  rewrite plane_bounds_constrain.
  pose proof (fold_constrain_bounds ray
                (FrustumMappingIntersection.m_planes f) s
                (- dbl_max, dbl_max)%R) as Hfs.
  pose proof (fold_constrain_bounds ray
                (FrustumMappingIntersection.m_planes f) u
                (- dbl_max, dbl_max)%R) as Hfu.
  pose proof dbl_max_pos as Hbig.
  destruct (fold_left _ _ _) as [a b]. cbn [fst snd] in Hfs, Hfu.
  assert (Has : (a <= s <= b)%R).
  { apply Hfs. split; [lra | ]. intros p Hp Hd. apply (Hin p Hp Hd). }
  assert (Hau : (a <= u <= b)%R).
  { apply Hfu. split; [lra | ]. intros p Hp Hd. apply (Hin p Hp Hd). }
  change (fltb a b) with (Rltb a b). rewrite Rltb_true by lra.
  eexists. split; [reflexivity | ]. cbn [t0 t1].
  rewrite std_max_Rmax. change (@f0 R Scalar_R) with 0%R.
  pose proof (Rmax_r a 0). unfold Rmax in *.
  destruct (Rle_dec a 0); lra.
Qed.

(** X11 on the frustum handler of [ortho] and the ray [ortho_ray], between
    the parameters 1 and 2. *)
Lemma frustum_interval_complete_witness :
  exists iv,
    FrustumMappingIntersection.intersect
      Props.ortho_handler Instances.ortho_ray 0%R = [iv]
    /\ (0 <= t0 iv <= 1)%R /\ (2 <= t1 iv)%R.
Proof.
  apply (@frustum_interval_complete Props.ortho_handler Instances.ortho_ray
           0%R 1%R 2%R).
  - lra.
  - lra.
  - pose proof dbl_max_large. lra.
  - unfold Props.ortho_handler. rewrite ortho_planes.
    intros p Hp Hd. unfold Props.inside.
    cbn [In] in Hp.
    repeat (destruct Hp as [<- | Hp]; [unfold Instances.ortho_ray; r_arith;
                                       split; lra | ]).
    destruct Hp.
Defined.

Section ParallelPlanes.
Context {F : Type} `{Scalar F}.

(** A plane the ray runs parallel to leaves [t0] and [t1] as they are. *)
Lemma plane_step_parallel (ray : Ray F) (acc : F * F) (p : Plane F) :
  Props.crosses ray p = false ->
  FrustumMappingIntersection.plane_step ray acc p = acc.
Proof.
  unfold Props.crosses, FrustumMappingIntersection.plane_step, intersectT.
  destruct acc as [a b]. destruct (feqb _ _); [reflexivity | discriminate].
Qed.

Lemma fold_plane_step_filter (ray : Ray F) (planes : list (Plane F)) :
  forall acc : F * F,
    fold_left (FrustumMappingIntersection.plane_step ray) planes acc
    = fold_left (FrustumMappingIntersection.plane_step ray)
                (filter (Props.crosses ray) planes) acc.
Proof.
  induction planes as [ | p planes IH]; intros acc; cbn [fold_left filter].
  - reflexivity.
  - destruct (Props.crosses ray p) eqn:Hc; cbn [fold_left].
    + apply IH.
    + rewrite (plane_step_parallel ray acc p Hc). apply IH.
Qed.
End ParallelPlanes.

(** X12: in every arithmetic, a bounding plane the ray runs parallel to has
    no say in the result of the frustum handler, on whichever side of the
    plane the ray runs: the handler answers as it would without the planes
    parallel to the ray. *)
Theorem frustum_ignores_parallel_planes
    {F : Type} `{Scalar F}
    (f : FrustumMappingIntersection.t F) (ray : Ray F) (time : PTime F) :
  FrustumMappingIntersection.intersect f ray time
  = FrustumMappingIntersection.intersect
      (FrustumMappingIntersection.mk
         (FrustumMappingIntersection.m_mapping f)
         (filter (Props.crosses ray) (FrustumMappingIntersection.m_planes f)))
      ray time.
Proof.
  unfold FrustumMappingIntersection.intersect,
    FrustumMappingIntersection.plane_bounds.
  cbn [FrustumMappingIntersection.m_planes
       FrustumMappingIntersection.m_mapping].
  rewrite <- fold_plane_step_filter. reflexivity.
Qed.

(* ------------------------------------------------------------------ *)
(** * Further properties: the Gaussian sampler *)
(* ------------------------------------------------------------------ *)

Section GaussianMean.
Local Open Scope R_scope.

(** The members of [lo; lo + 1; ...]. *)
Lemma in_interval (lo : Z) (n : nat) (i : Z) :
  In i (Spec.interval lo n) -> (lo <= i < lo + Z.of_nat n)%Z.
Proof.
  revert lo. induction n as [ | n IH]; intros lo; cbn [Spec.interval].
  - intros [].
  - intros [<- | Hin]; [lia | ]. apply IH in Hin. lia.
Qed.

Lemma in_neighbourhood (c : V3i) (i j k : Z) :
  In (i, j, k) (Spec.neighbourhood c) ->
  (ix c <= i <= ix c + 3 /\ iy c <= j <= iy c + 3
   /\ iz c <= k <= iz c + 3)%Z.
Proof.
  unfold Spec.neighbourhood. intros Hin.
  apply in_flat_map in Hin. destruct Hin as (k' & Hk & Hin).
  apply in_flat_map in Hin. destruct Hin as (j' & Hj & Hin).
  apply in_map_iff in Hin. destruct Hin as (i' & Heq & Hi).
  injection Heq as -> -> ->.
  apply in_interval in Hi, Hj, Hk. lia.
Qed.

(** A mean with non-negative weights lies between the bounds of what it
    averages. *)
Lemma weighted_mean_bounds {A : Type} (w v : A -> R) (l : list A) (m M : R) :
  (forall t, In t l -> 0 <= w t) ->
  (forall t, In t l -> m <= v t <= M) ->
  0 < Spec.sum_R (map w l) ->
  m <= Spec.sum_R (map (fun t => w t * v t) l) / Spec.sum_R (map w l) <= M.
Proof.
  intros Hw Hv Hpos.
  assert (Hsum :
    m * Spec.sum_R (map w l) <= Spec.sum_R (map (fun t => w t * v t) l)
    /\ Spec.sum_R (map (fun t => w t * v t) l) <= M * Spec.sum_R (map w l)).
  { clear Hpos. unfold Spec.sum_R.
    induction l as [ | t l IH]; cbn [map fold_right].
    - lra.
    - assert (0 <= w t) by (apply Hw; left; reflexivity).
      assert (m <= v t <= M) by (apply Hv; left; reflexivity).
      assert (IH' : m * fold_right Rplus 0 (map w l)
                    <= fold_right Rplus 0 (map (fun t => w t * v t) l)
                    /\ fold_right Rplus 0 (map (fun t => w t * v t) l)
                       <= M * fold_right Rplus 0 (map w l)).
      { apply IH; intros t' Ht'; [apply Hw | apply Hv]; right; exact Ht'. }
      nra. }
  set (sw := Spec.sum_R (map w l)) in *.
  set (sv := Spec.sum_R (map (fun t => w t * v t) l)) in *.
  split.
  - apply Rmult_le_reg_r with sw; [exact Hpos | ].
    replace (sv / sw * sw) with sv by (field; lra). lra.
  - apply Rmult_le_reg_r with sw; [exact Hpos | ].
    replace (sv / sw * sw) with sv by (field; lra). lra.
Qed.

(** The sampler on a field of numbers, as the quotient of the two sums. *)
Lemma sample_R_sums (data : Field R R) (p : Vec3 R) :
  Spec.within_int p ->
  GaussianFieldInterp.sample data p
  = Some
      (Spec.sum_R (map (fun t => Spec.weight (Spec.clamped p) t
                                * Spec.lookup data t)
                      (Spec.neighbourhood (Spec.origin (Spec.clamped p))))
       / Spec.sum_R (map (Spec.weight (Spec.clamped p))
                       (Spec.neighbourhood (Spec.origin (Spec.clamped p))))).
Proof.
  intros Hin. unfold GaussianFieldInterp.sample.
  rewrite (accumulate_within data Hin).
  set (cp := Spec.clamped p). set (c := Spec.origin cp).
  pose proof (@loops_fst R DataT_R data cp DataTLaws_R c (d_zero, 0%R))
    as Hfst.
  pose proof (loops_snd data cp c (d_zero, 0%R)) as Hsnd.
  destruct (for_loop _ _ _ _) as [value normalization].
  cbn [fst snd] in Hfst, Hsnd. rewrite Hfst, Hsnd.
  cbn [d_div d_add d_zero d_scale DataT_R].
  rewrite !Rplus_0_l. reflexivity.
Qed.

(** The sampler on a field of numbers answers between the bounds of the
    voxels it looks up. *)
Lemma sample_R_bounds (data : Field R R) (p : Vec3 R) (m M : R) :
  Spec.within_int p ->
  (forall t,
     In t (Spec.neighbourhood (Spec.origin (Spec.clamped p))) ->
     m <= Spec.lookup data t <= M) ->
  exists v,
    GaussianFieldInterp.sample data p = Some v /\ m <= v <= M.
Proof.
  intros Hin Hv. rewrite (sample_R_sums data Hin).
  eexists. split; [reflexivity | ]. apply weighted_mean_bounds.
  - intros t _. apply weight_nonneg.
  - exact Hv.
  - apply weights_sum_pos.
Qed.

(** An index clamped to a non-empty range is in the range. *)
Lemma lookup_in_window {Data_T : Type} (data : Field R Data_T)
    (i j k : Z) :
  Props.nonempty (dataWindow data) ->
  Props.in_window (dataWindow data)
    (Spec.clamp (ix (imin (dataWindow data))) (ix (imax (dataWindow data))) i)
    (Spec.clamp (iy (imin (dataWindow data))) (iy (imax (dataWindow data))) j)
    (Spec.clamp (iz (imin (dataWindow data))) (iz (imax (dataWindow data))) k).
Proof. unfold Props.nonempty, Props.in_window, Spec.clamp. lia. Qed.
End GaussianMean.

(** X13: in exact arithmetic, on a field of numbers with a non-empty data
    window, at every point below [2^31 - 2.5] on each axis, the Gaussian
    sampler answers, and it answers between the smallest and the largest
    voxel of the data window: if every voxel of the window is between [m]
    and [M], so is the sample.  A field that is constant on its data window
    is sampled as that constant. *)
Theorem gaussian_sample_bounds
    (data : Field R R) (p : Vec3 R) (m M : R) :
  Spec.within_int p ->
  Props.nonempty (dataWindow data) ->
  (forall i j k,
     Props.in_window (dataWindow data) i j k ->
     (m <= value data i j k <= M)%R) ->
  exists v,
    GaussianFieldInterp.sample data p = Some v /\ (m <= v <= M)%R.
Proof.
  intros Hin Hne Hv. apply sample_R_bounds; [exact Hin | ].
  intros [[i j] k] _. unfold Spec.lookup. apply Hv.
  apply lookup_in_window. exact Hne.
Qed.

(** X13 on the field that is one at the voxel (5, 5, 5) and zero
    elsewhere. *)
Lemma gaussian_sample_bounds_witness :
  exists v,
    GaussianFieldInterp.sample Instances.unit_voxel_field
      (V3 5.5 5.5 5.5)%R = Some v
    /\ (0 <= v <= 1)%R.
Proof.
  apply (@gaussian_sample_bounds Instances.unit_voxel_field
           (V3 5.5 5.5 5.5)%R 0%R 1%R).
  - unfold Spec.within_int, Spec.int_limit; cbn [vx vy vz]. lra.
  - unfold Props.nonempty; cbn. lia.
  - intros i j k _. cbn.
    destruct (Z.eqb i 5 && Z.eqb j 5 && Z.eqb k 5)%bool; lra.
Defined.

(** X14: in exact arithmetic, on a field of numbers with a non-empty data
    window, a point that lies, on every axis, at least one voxel and a half
    past the largest index and below [2^31 - 2.5] is sampled as the voxel
    in the far corner of the data window: every tap of the neighbourhood is
    clamped to it. *)
Theorem gaussian_sample_beyond_window (data : Field R R) (p : Vec3 R) :
  Spec.within_int p ->
  Props.nonempty (dataWindow data) ->
  (IZR (ix (imax (dataWindow data))) + 1.5 <= vx p)%R ->
  (IZR (iy (imax (dataWindow data))) + 1.5 <= vy p)%R ->
  (IZR (iz (imax (dataWindow data))) + 1.5 <= vz p)%R ->
  GaussianFieldInterp.sample data p
  = Some (value data (ix (imax (dataWindow data)))
                     (iy (imax (dataWindow data)))
                     (iz (imax (dataWindow data)))).
Proof.
  intros Hint (Hnx & Hny & Hnz) Hx Hy Hz.
  set (corner := value data _ _ _).
  assert (Hb : exists v, GaussianFieldInterp.sample data p = Some v
                         /\ (corner <= v <= corner)%R).
  2: { destruct Hb as (v & -> & Hv). f_equal. lra. }
  apply sample_R_bounds; [exact Hint | ]. intros [[i j] k] Hin.
  apply in_neighbourhood in Hin. unfold Spec.origin in Hin. cbn in Hin.
  assert (Hfloor : forall (hi : Z) (x : R),
             (IZR hi + 1.5 <= x)%R ->
             (hi + 1 <= Zfloor (Rmax 0.5 x - 0.5))%Z).
  { intros hi x Hle. apply Zfloor_lub. rewrite plus_IZR.
    pose proof (Rmax_r 0.5 x). lra. }
  apply Hfloor in Hx, Hy, Hz.
  unfold Spec.lookup, Spec.clamp, corner.
  replace (Z.max (ix (imin (dataWindow data)))
                 (Z.min i (ix (imax (dataWindow data)))))
    with (ix (imax (dataWindow data))) by lia.
  replace (Z.max (iy (imin (dataWindow data)))
                 (Z.min j (iy (imax (dataWindow data)))))
    with (iy (imax (dataWindow data))) by lia.
  replace (Z.max (iz (imin (dataWindow data)))
                 (Z.min k (iz (imax (dataWindow data)))))
    with (iz (imax (dataWindow data))) by lia.
  lra.
Qed.

(** X14 on the field that is one at the voxel (5, 5, 5), far past its data
    window, which ends at the index 9. *)
Lemma gaussian_sample_beyond_window_witness :
  GaussianFieldInterp.sample Instances.unit_voxel_field (V3 20 20 20)%R
  = Some (value Instances.unit_voxel_field 9 9 9).
Proof.
  apply (@gaussian_sample_beyond_window Instances.unit_voxel_field
           (V3 20 20 20)%R).
  - unfold Spec.within_int, Spec.int_limit; cbn [vx vy vz]. lra.
  - unfold Props.nonempty; cbn. lia.
  - cbn. lra.
  - cbn. lra.
  - cbn. lra.
Defined.

Section GaussianWindow.
Context {Data_T : Type} `{DataT Data_T}.
Local Open Scope R_scope.

(** Two fields with one data window that agree inside it are accumulated
    alike, from every corner and for every point. *)
Lemma tap_window_only (data data' : Field R Data_T)
    (g : GaussianFieldInterp.Gaussian) (cp : Vec3 R) (k j i : Z)
    (acc : Data_T * R) :
  dataWindow data' = dataWindow data ->
  Props.nonempty (dataWindow data) ->
  (forall i j k,
     Props.in_window (dataWindow data) i j k ->
     value data' i j k = value data i j k) ->
  GaussianFieldInterp.tap data' g cp k j i acc
  = GaussianFieldInterp.tap data g cp k j i acc.
Proof.
  intros Hdw Hne Hv. unfold GaussianFieldInterp.tap.
  destruct acc as [value normalization]. cbv zeta. rewrite Hdw.
  rewrite Hv; [reflexivity | ].
  apply (lookup_in_window data i j k Hne).
Qed.

Lemma std_max_idem (a x : R) : std_max a (std_max a x) = std_max a x.
Proof.
  rewrite !std_max_Rmax. apply Rmax_right. apply Rmax_l.
Qed.
End GaussianWindow.

(** X15: the Gaussian sampler reads a field only inside its data window.
    Two fields with the same non-empty data window that hold the same
    voxels inside it are sampled alike at every point, whatever they hold
    outside; this is the effect of clamping the index of every tap. *)
Theorem gaussian_sample_window_only
    {Data_T : Type} `{DataT Data_T}
    (data data' : Field R Data_T) (p : Vec3 R) :
  dataWindow data' = dataWindow data ->
  Props.nonempty (dataWindow data) ->
  (forall i j k,
     Props.in_window (dataWindow data) i j k ->
     value data' i j k = value data i j k) ->
  GaussianFieldInterp.sample data' p = GaussianFieldInterp.sample data p.
Proof.
  intros Hdw Hne Hv.
  unfold GaussianFieldInterp.sample, GaussianFieldInterp.accumulate.
  set (cp := GaussianFieldInterp.clamp_point p).
  destruct (GaussianFieldInterp.corner cp) as [c | ]; [ | reflexivity].
  destruct (GaussianFieldInterp.loop_bounds c); [ | reflexivity].
  set (g := GaussianFieldInterp.Gaussian_make 2 2).
  replace (for_loop (iz c) 4
             (fun k => for_loop (iy c) 4
                (fun j => for_loop (ix c) 4
                   (fun i => GaussianFieldInterp.tap data' g cp k j i)))
             (d_zero, 0%R))
    with (for_loop (iz c) 4
             (fun k => for_loop (iy c) 4
                (fun j => for_loop (ix c) 4
                   (fun i => GaussianFieldInterp.tap data g cp k j i)))
             (d_zero, 0%R)); [reflexivity | ].
  apply for_loop_ext. intros k s.
  apply for_loop_ext. intros j s'.
  apply for_loop_ext. intros i s''.
  symmetry. apply tap_window_only; assumption.
Qed.

(** X15 on two fields that are one at the voxel (5, 5, 5) and zero elsewhere
    in the data window, the second being 7 at every index outside it. *)
Lemma gaussian_sample_window_only_witness :
  GaussianFieldInterp.sample Props.unit_voxel_field_outside
    (V3 0.25 9.75 20)%R
  = GaussianFieldInterp.sample Instances.unit_voxel_field
      (V3 0.25 9.75 20)%R.
Proof.
  apply (@gaussian_sample_window_only R DataT_R
           Instances.unit_voxel_field Props.unit_voxel_field_outside
           (V3 0.25 9.75 20)%R).
  - reflexivity.
  - unfold Props.nonempty; cbn. lia.
  - intros i j k (Hi & Hj & Hk). cbn in Hi, Hj, Hk.
    cbn [value Props.unit_voxel_field_outside].
    replace ((0 <=? i) && (i <=? 9) && (0 <=? j) && (j <=? 9)
             && (0 <=? k) && (k <=? 9))%Z%bool with true; [reflexivity | ].
    symmetry. repeat (apply andb_true_intro; split); apply Z.leb_le; lia.
Defined.

(** X16: the Gaussian sampler sees a point only through its clamp to the
    coordinates at or above one half: a point and the point it is clamped
    to are sampled alike, so every point with a coordinate below the centre
    of the first voxel is sampled as the point on that boundary. *)
Theorem gaussian_sample_clamped
    {Data_T : Type} `{DataT Data_T}
    (data : Field R Data_T) (p : Vec3 R) :
  GaussianFieldInterp.sample data p
  = GaussianFieldInterp.sample data
      (V3 (Rmax 0.5 (vx p)) (Rmax 0.5 (vy p)) (Rmax 0.5 (vz p))).
Proof.
  unfold GaussianFieldInterp.sample, GaussianFieldInterp.accumulate.
  replace (GaussianFieldInterp.clamp_point
             (V3 (Rmax 0.5 (vx p)) (Rmax 0.5 (vy p)) (Rmax 0.5 (vz p))))
    with (GaussianFieldInterp.clamp_point p); [reflexivity | ].
  unfold GaussianFieldInterp.clamp_point. cbn [vx vy vz].
  rewrite <- !std_max_Rmax, !std_max_idem. reflexivity.
Qed.

Section GaussianKernel.
Local Open Scope R_scope.

Lemma exp_le_iff (a b : R) : exp a <= exp b <-> a <= b.
Proof.
  split; intros Hle.
  - destruct (Rle_or_lt a b) as [Hab | Hab]; [exact Hab | ].
    apply exp_increasing in Hab. lra.
  - destruct Hle as [Hlt | ->]; [ | lra].
    apply exp_increasing in Hlt. lra.
Qed.

Lemma sqr_le_abs (w x : R) : 0 <= w -> (w * w <= x * x <-> w <= Rabs x).
Proof.
  intros Hw. unfold Rabs. destruct (Rcase_abs x) as [Hx | Hx]; split; nra.
Qed.
End GaussianKernel.

(** X17: the kernel [Gaussian(alpha, width)] with a positive [alpha] and a
    non-negative [width], in exact arithmetic: it is never negative, it is
    zero exactly from the distance [width] on, it is even, and it is
    largest at the centre. *)
Theorem Gaussian_eval_support (alpha width x : R) :
  (0 < alpha)%R -> (0 <= width)%R ->
  (0 <= GaussianFieldInterp.eval
          (GaussianFieldInterp.Gaussian_make alpha width) x)%R
  /\ (GaussianFieldInterp.eval
        (GaussianFieldInterp.Gaussian_make alpha width) x = 0%R
      <-> (width <= Rabs x)%R)
  /\ GaussianFieldInterp.eval
       (GaussianFieldInterp.Gaussian_make alpha width) (- x)
     = GaussianFieldInterp.eval
         (GaussianFieldInterp.Gaussian_make alpha width) x
  /\ (GaussianFieldInterp.eval
        (GaussianFieldInterp.Gaussian_make alpha width) x
      <= GaussianFieldInterp.eval
           (GaussianFieldInterp.Gaussian_make alpha width) 0)%R.
Proof.
  intros Ha Hw.
  unfold GaussianFieldInterp.eval, GaussianFieldInterp.Gaussian_make.
  cbn [GaussianFieldInterp.m_alpha GaussianFieldInterp.m_exp].
  rewrite !std_max_Rmax.
  pose proof (exp_le_iff (- alpha * x * x) (- alpha * width * width)) as Hx.
  pose proof (sqr_le_abs x Hw) as Habs.
  assert (Hsq : (- alpha * x * x <= - alpha * width * width
                 <-> width * width <= x * x)%R) by (split; nra).
  assert (H0 : (exp (- alpha * x * x) <= exp (- alpha * 0 * 0))%R).
  { apply exp_le_iff. nra. }
  split; [apply Rmax_l | ].
  split; [ | split].
  - split.
    + intros Hz. apply Habs, Hsq, Hx.
      pose proof (Rmax_r 0 (exp (- alpha * x * x)
                            - exp (- alpha * width * width))). lra.
    + intros Hle. apply Habs, Hsq, Hx in Hle.
      apply Rmax_left. lra.
  - replace (- alpha * - x * - x)%R with (- alpha * x * x)%R by ring.
    reflexivity.
  - apply Rle_max_compat_l. lra.
Qed.

(** X17 on the kernel of the sampler, two voxels from the centre. *)
Lemma Gaussian_eval_support_witness :
  GaussianFieldInterp.eval (GaussianFieldInterp.Gaussian_make 2 2) 2 = 0%R.
Proof.
  apply (@Gaussian_eval_support 2 2 2); [lra | lra | ].
  unfold Rabs. destruct (Rcase_abs 2); lra.
Defined.

(* ------------------------------------------------------------------ *)
(** * Further properties: the bounds test in binary64 *)
(* ------------------------------------------------------------------ *)

Section NaN.

Lemma is_nan_Prim2SF (x : float) :
  Props.is_nan x = true -> FloatOps.Prim2SF x = SpecFloat.S754_nan.
Proof.
  unfold Props.is_nan. rewrite FloatAxioms.eqb_spec.
  unfold SpecFloat.SFeqb.
  destruct (FloatOps.Prim2SF x) as [ s | s | | s m e]; cbn.
  - discriminate.
  - destruct s; discriminate.
  - reflexivity.
  - rewrite Z.compare_refl.
    change (PosDef.Pos.compare_cont Eq m m) with (Pos.compare m m).
    rewrite Pos.compare_refl. destruct s; discriminate.
Qed.

(** Every ordered comparison with a NaN is false. *)
Lemma ltb_nan_l (x y : float) :
  Props.is_nan x = true -> PrimFloat.ltb x y = false.
Proof.
  intros Hx. rewrite FloatAxioms.ltb_spec, (@is_nan_Prim2SF x Hx).
  reflexivity.
Qed.

Lemma ltb_nan_r (x y : float) :
  Props.is_nan y = true -> PrimFloat.ltb x y = false.
Proof.
  intros Hy. rewrite FloatAxioms.ltb_spec, (@is_nan_Prim2SF y Hy).
  unfold SpecFloat.SFltb. destruct (FloatOps.Prim2SF x); reflexivity.
Qed.
End NaN.

(** X18: in binary64, [isInBounds] accepts a point whose three coordinates
    are NaN, for every data window, the empty ones included: both
    comparisons of each axis are false, so no axis rejects the point. *)
Theorem isInBounds_nan (vsP : Vec3 float) (dw : Box3i) :
  Props.is_nan (vx vsP) = true ->
  Props.is_nan (vy vsP) = true ->
  Props.is_nan (vz vsP) = true ->
  isInBounds vsP dw = true.
Proof.
  intros Hx Hy Hz. unfold isInBounds. cbn [isInBounds_from vnth inth].
  unfold fgtb. cbn [fltb Scalar_float].
  rewrite !(fun y => @ltb_nan_l (vx vsP) y Hx),
          !(fun y => @ltb_nan_l (vy vsP) y Hy),
          !(fun y => @ltb_nan_l (vz vsP) y Hz).
  rewrite !(fun x => @ltb_nan_r x (vx vsP) Hx),
          !(fun x => @ltb_nan_r x (vy vsP) Hy),
          !(fun x => @ltb_nan_r x (vz vsP) Hz).
  reflexivity.
Qed.

(** X18 on the NaN point and a data window whose minimum is above its
    maximum. *)
Lemma isInBounds_nan_witness :
  isInBounds (V3 PrimFloat.nan PrimFloat.nan PrimFloat.nan)
             (mkBox3i (mkV3i 1 1 1) (mkV3i 0 0 0)) = true.
Proof.
  apply (@isInBounds_nan (V3 PrimFloat.nan PrimFloat.nan PrimFloat.nan)
           (mkBox3i (mkV3i 1 1 1) (mkV3i 0 0 0))); reflexivity.
Defined.

(* ------------------------------------------------------------------ *)
(** * Further properties: the step length of the uniform handler *)
(* ------------------------------------------------------------------ *)

Section UniformStep.
Local Open Scope R_scope.

(** An affine matrix takes the difference of two points of a ray to a
    multiple of the direction it takes the ray to. *)
Lemma affine_vsub (m : M44 R) (ray : Ray R) (a b : R) :
  Props.affine m ->
  vsub (multVecMatrix m (line_at ray b)) (multVecMatrix m (line_at ray a))
  = vscale (multDirMatrix m (dir ray)) (b - a).
Proof.
  intros (H03 & H13 & H23 & H33).
  destruct m, ray as [[px py pz] [dx dy dz]]. cbn in H03, H13, H23, H33.
  subst.
  unfold multVecMatrix, multDirMatrix, vsub, vscale, line_at, vadd.
  cbn. apply V3_eq; field; lra.
Qed.

Lemma length_vscale (v : Vec3 R) (k : R) :
  0 <= k -> length (vscale v k) = k * length v.
Proof.
  intros Hk. unfold length. r_arith.
  replace (vx v * k * (vx v * k) + vy v * k * (vy v * k)
           + vz v * k * (vz v * k))
    with (k * k * (vx v * vx v + vy v * vy v + vz v * vz v)) by ring.
  rewrite sqrt_mult; [ | nra | nra].
  rewrite sqrt_square by exact Hk. reflexivity.
Qed.

(** The slab test on the ray through the centre of the unit cube. *)
Lemma unit_handler_intersect :
  UniformMappingIntersection.intersect (H0 := Instances.Externals_model)
    Props.unit_handler Props.centre_ray 0
  = [mkInterval 1 2 (/ 8)].
Proof.
  unfold UniformMappingIntersection.intersect.
  cbn [UniformMappingIntersection.m_worldToLocal
       UniformMappingIntersection.m_worldToVoxel Props.unit_handler].
  replace (multVecMatrix Instances.identity (pos Props.centre_ray))
    with (V3 0.5 0.5 (-1))
    by (unfold multVecMatrix; cbn; apply V3_eq; field; lra).
  replace (multDirMatrix Instances.identity (dir Props.centre_ray))
    with (V3 0 0 1)
    by (unfold multDirMatrix; cbn; apply V3_eq; ring).
  cbn [Math_intersect Instances.Externals_model].
  unfold Instances.slab_intersect, Instances.slab_axis, Bounds_zeroOne.
  cbn [pos dir vx vy vz bmin bmax feqb fltb fsub fdiv fopp f0 f1 fmaxval
       Scalar_R].
  rewrite (@Reqb_true 0 0), (@Rltb_false 0.5 0), (@Rltb_false 1 0.5)
    by lra.
  cbn [orb]. rewrite (@Reqb_false 1 0) by lra.
  rewrite !std_max_Rmax, !std_min_Rmin.
  pose proof dbl_max_large as Hmax.
  replace ((0 - -1) / 1) with 1 by field.
  replace ((1 - -1) / 1) with 2 by field.
  rewrite (Rmin_left 1 2), (Rmax_right 1 2) by lra.
  rewrite (Rmax_right (- dbl_max) 1), (Rmin_right dbl_max 2) by lra.
  rewrite (@Rltb_false 2 1) by lra.
  rewrite affine_vsub
    by (unfold Props.affine; cbn; repeat split; reflexivity).
  rewrite length_vscale by lra.
  unfold length, multDirMatrix. r_arith. cbn.
  match goal with
  | |- context [R_sqrt.sqrt ?x] => replace x with (8 * 8) by ring
  end.
  rewrite sqrt_square by lra.
  replace ((2 - 1) / ((2 - 1) * 8)) with (/ 8) by field.
  reflexivity.
Qed.
End UniformStep.

(** X19: in exact arithmetic, for a uniform handler whose [worldToVoxel]
    matrix is affine, whatever [Math::intersect] answers: the step length
    of a returned interval of positive extent is the inverse of the length
    the matrix gives the direction of the ray, whatever the interval, and
    one step along the ray moves the sample point by exactly one voxel. *)
Theorem uniform_step_is_one_voxel
    {E : Externals R}
    (u : UniformMappingIntersection.t R) (ray : Ray R) (time : PTime R)
    (iv : Interval R) :
  Props.affine (UniformMappingIntersection.m_worldToVoxel u) ->
  In iv (UniformMappingIntersection.intersect u ray time) ->
  (t0 iv < t1 iv)%R ->
  multDirMatrix (UniformMappingIntersection.m_worldToVoxel u) (dir ray)
    <> V3 0%R 0%R 0%R ->
  stepLength iv
  = (1 / length (multDirMatrix
                   (UniformMappingIntersection.m_worldToVoxel u)
                   (dir ray)))%R
  /\ forall t : R,
       length
         (vsub (multVecMatrix (UniformMappingIntersection.m_worldToVoxel u)
                  (line_at ray (t + stepLength iv)%R))
               (multVecMatrix (UniformMappingIntersection.m_worldToVoxel u)
                  (line_at ray t)))
       = 1%R.
Proof.
  intros Haff Hin Hlt Hdir.
  unfold UniformMappingIntersection.intersect in Hin.
  destruct (Math_intersect _ _) as [[a b] | ]; [ | destruct Hin].
  destruct Hin as [<- | []]. cbn [t0 t1 stepLength] in *.
  set (M := UniformMappingIntersection.m_worldToVoxel u) in *.
  assert (HL : (0 < length (multDirMatrix M (dir ray)))%R).
  { unfold length. change (0 < R_sqrt.sqrt
                                 (dot (multDirMatrix M (dir ray))
                                      (multDirMatrix M (dir ray))))%R.
    apply sqrt_lt_R0. apply dot_self_pos. exact Hdir. }
  rewrite (@affine_vsub M ray a b Haff).
  rewrite length_vscale by lra.
  set (L := length (multDirMatrix M (dir ray))) in *.
  assert (Hstep : fdiv (fsub b a) ((b - a) * L)%R = (1 / L)%R).
  { cbn [fdiv fsub Scalar_R]. field. lra. }
  rewrite Hstep. split; [reflexivity | ].
  intros t. rewrite (@affine_vsub M ray t (t + 1 / L)%R Haff).
  replace (t + 1 / L - t)%R with (1 / L)%R by ring.
  assert (0 < 1 / L)%R by (apply Rdiv_lt_0_compat; lra).
  rewrite length_vscale by lra.
  fold L. field. lra.
Qed.

(** X19 on the handler of a unit cube of eight voxels a side and the ray
    through its centre: the step is an eighth of the way through. *)
Lemma uniform_step_is_one_voxel_witness :
  stepLength (mkInterval 1 2 (/ 8))%R
  = (1 / length (multDirMatrix Instances.scale8 (dir Props.centre_ray)))%R
  /\ forall t : R,
       length
         (vsub (multVecMatrix Instances.scale8
                  (line_at Props.centre_ray
                     (t + stepLength (mkInterval 1 2 (/ 8)))%R))
               (multVecMatrix Instances.scale8
                  (line_at Props.centre_ray t)))
       = 1%R.
Proof.
  apply (@uniform_step_is_one_voxel Instances.Externals_model
           Props.unit_handler Props.centre_ray 0%R
           (mkInterval 1 2 (/ 8))%R).
  - unfold Props.affine; cbn. repeat split; reflexivity.
  - rewrite unit_handler_intersect. left. reflexivity.
  - cbn [t0 t1]. lra.
  - unfold multDirMatrix; cbn. intros Heq. injection Heq as _ _ Hz. lra.
Defined.
